(** * Custom HTTP routing in Go: a shallow embedding

    The repository is a progression of small HTTP servers:
    - [02_serve_mux.go]: three handlers registered on an [http.ServeMux];
    - the response-wrapper example: the same, through [Response.Text];
    - [04_custom_handler.go]: an [App] whose [ServeHTTP] answers everything;
    - the regular-expression router with [Request]/[Response];
    - the regular-expression router with a [Context].

    Go strings are byte strings; they are [string] here.  Go's [int] status
    codes are [Z] (no arithmetic is done on them).  A handler writes through
    an [http.ResponseWriter]; that interface is embedded as a recorder of the
    three methods the examples call, with the checks the library's writer
    makes on a status code, threaded through a small state monad with
    panics.  A handler is a function value: where what it captured
    matters, the router is taken with a store for the captured variables
    ([ClosureRouter]). *)

From Stdlib Require Import ZArith String Ascii List Lia Bool DecimalString.
From stdpp Require Import base option list gmap strings.

Local Open Scope string_scope.
Local Open Scope Z_scope.

(** ** Control: state passing over the response writer, with panics *)

Inductive result (A : Type) : Type :=
| Ok (a : A)
| Panic (msg : string).
Arguments Ok {A} a.
Arguments Panic {A} msg.

Definition Eff (S A : Type) : Type := S -> result A * S.

Definition ret {S A} (a : A) : Eff S A := fun s => (Ok a, s).

Definition bind {S A B} (m : Eff S A) (k : A -> Eff S B) : Eff S B :=
  fun s => match m s with
           | (Ok a, s') => k a s'
           | (Panic msg, s') => (Panic msg, s')
           end.

Definition panic {S A} (msg : string) : Eff S A := fun s => (Panic msg, s).

Definition modify {S} (f : S -> S) : Eff S unit := fun s => (Ok tt, f s).

Declare Scope eff_scope.
Delimit Scope eff_scope with eff.
Notation "m ;; k" := (bind m (fun _ => k))
  (at level 100, k at level 200, right associativity) : eff_scope.
Notation "x <- m ;; k" := (bind m (fun x => k))
  (at level 100, m at next level, k at level 200, right associativity) : eff_scope.

(** ** The pieces of [fmt], [strings], [net/url] and [net/http] in use *)

Module fmt.

(** [fmt.Sprintf] for formats made of text, [%s] and [%%]; a [%s] with no
    operand left prints Go's [%!s(MISSING)]. *)
Fixpoint Sprintf (format : string) (args : list string) : string :=
  match format with
  | EmptyString => ""
  | String "%" (String "s" rest) =>
      match args with
      | a :: args' => a +:+ Sprintf rest args'
      | [] => "%!s(MISSING)" +:+ Sprintf rest []
      end
  | String "%" (String "%" rest) => String "%" (Sprintf rest args)
  | String c rest => String c (Sprintf rest args)
  end.

End fmt.

Module strings.

Fixpoint HasPrefix (s prefix : string) : bool :=
  match prefix, s with
  | EmptyString, _ => true
  | String p prefix', String c s' =>
      if Ascii.eqb p c then HasPrefix s' prefix' else false
  | String _ _, EmptyString => false
  end.

(** The scan of [strings.Replace] for a non-empty [old]: [skip] counts the
    bytes of the occurrence just replaced that are still to be dropped;
    [n] is the number of replacements left, [None] for no limit. *)
Fixpoint replace_from (s old new : string) (skip : nat) (n : option nat)
  : string :=
  match s with
  | EmptyString => ""
  | String c s' =>
      match skip with
      | S skip' => replace_from s' old new skip' n
      | O =>
          if HasPrefix s old then
            match n with
            | Some O => String c (replace_from s' old new O n)
            | Some (S n') =>
                new +:+ replace_from s' old new (Nat.pred (String.length old)) (Some n')
            | None =>
                new +:+ replace_from s' old new (Nat.pred (String.length old)) None
            end
          else String c (replace_from s' old new O n)
      end
  end.

(** An empty [old] matches before every byte and at the end. *)
Fixpoint replace_empty (s new : string) (n : option nat) : string :=
  match n with
  | Some O => s
  | _ =>
      match s with
      | EmptyString => new
      | String c s' =>
          new +:+ String c (replace_empty s' new (Nat.pred <$> n))
      end
  end.

(** [strings.Replace(s, old, new, n)]: the first [n] non-overlapping
    occurrences of [old] replaced by [new]; all of them when [n < 0]. *)
Definition Replace (s old new : string) (n : Z) : string :=
  let limit := if (n <? 0)%Z then None else Some (Z.to_nat n) in
  if String.eqb old new || (n =? 0)%Z then s
  else if String.eqb old "" then replace_empty s new limit
  else replace_from s old new O limit.

End strings.

Module url.
Record URL : Type := { Path : string }.
End url.

Module http.

Definition StatusOK : Z := 200.
Definition StatusNotFound : Z := 404.

Record Request : Type := {
  Method : string;
  URL : url.URL;
  Host : string
}.

(** A method call made on the writer. *)
Inductive Call : Type :=
| CallHeaderSet (key value : string)
| CallWriteHeader (code : Z)
| CallWrite (data : string).

(** The writer as a recorder: the header map handed out by [Header()],
    whether the status line went out, the status and the headers that
    went out with it, the body bytes so far, the informational responses
    sent before the final one, and the calls in program order.  The first
    [WriteHeader] wins; a [Write] before any [WriteHeader] sends status 200
    first; header changes after the status line do not reach the wire. *)
Record ResponseWriter : Type := {
  header : gmap string (list string);
  wroteHeader : bool;
  status : Z;
  sentHeader : gmap string (list string);
  body : string;
  interim : list Z;
  calls : list Call
}.

Definition NewWriter : ResponseWriter :=
  {| header := ∅; wroteHeader := false; status := 0; sentHeader := ∅;
     body := ""; interim := []; calls := [] |}.

Definition record (c : Call) (w : ResponseWriter) : ResponseWriter :=
  {| header := header w; wroteHeader := wroteHeader w; status := status w;
     sentHeader := sentHeader w; body := body w; interim := interim w;
     calls := calls w ++ [c] |}.

Definition send_status (code : Z) (w : ResponseWriter) : ResponseWriter :=
  if wroteHeader w then w
  else {| header := header w; wroteHeader := true; status := code;
          sentHeader := header w; body := body w; interim := interim w;
          calls := calls w |}.

(** [w.Header().Set(key, value)] *)
Definition HeaderSet (key value : string) (w : ResponseWriter) : ResponseWriter :=
  let w := record (CallHeaderSet key value) w in
  {| header := <[key := [value]]> (header w); wroteHeader := wroteHeader w;
     status := status w; sentHeader := sentHeader w; body := body w;
     interim := interim w; calls := calls w |}.

(** [checkWriteHeaderCode]: a status code has three digits. *)
Definition validCode (code : Z) : bool := (100 <=? code) && (code <=? 999).

(** An informational code that leaves the response open: any [1xx] but
    [101 Switching Protocols]. *)
Definition informational (code : Z) : bool :=
  (100 <=? code) && (code <=? 199) && negb (code =? 101).

(** [bodyAllowedForStatus] *)
Definition bodyAllowedForStatus (status : Z) : bool :=
  if (100 <=? status) && (status <=? 199) then false
  else if status =? 204 then false
  else if status =? 304 then false
  else true.

(** The message of the panic of [checkWriteHeaderCode]:
    [fmt.Sprintf("invalid WriteHeader code %v", code)]. *)
Definition invalidCode (code : Z) : string :=
  "invalid WriteHeader code " +:+ NilZero.string_of_int (Z.to_int code).

(** [w.WriteHeader(code)].  Once the status line is out the call is
    superfluous and ignored.  Otherwise a code that has not three digits
    is a panic; an informational code is sent at once and the response
    stays open; any other code is the status of the response. *)
Definition WriteHeader (code : Z) : Eff ResponseWriter unit :=
  fun w =>
    let w := record (CallWriteHeader code) w in
    if wroteHeader w then (Ok tt, w)
    else if negb (validCode code) then (Panic (invalidCode code), w)
    else if informational code then
      (Ok tt, {| header := header w; wroteHeader := false; status := status w;
                 sentHeader := sentHeader w; body := body w;
                 interim := interim w ++ [code]; calls := calls w |})
    else (Ok tt, send_status code w).

(** [w.Write(data)], which is what [io.WriteString(w, data)] calls: status
    200 goes out first when none has, and the data is dropped (with the
    error [ErrBodyNotAllowed], which no caller here looks at) when the
    status sent allows no body. *)
Definition Write (data : string) (w : ResponseWriter) : ResponseWriter :=
  let w := send_status StatusOK (record (CallWrite data) w) in
  if bodyAllowedForStatus (status w) then
    {| header := header w; wroteHeader := wroteHeader w; status := status w;
       sentHeader := sentHeader w; body := body w +:+ data;
       interim := interim w; calls := calls w |}
  else w.

(** What the client receives. *)
Record Response : Type := {
  StatusCode : Z;
  RespHeader : gmap string (list string);
  Body : string
}.

Definition response (w : ResponseWriter) : Response :=
  {| StatusCode := status w; RespHeader := sentHeader w; Body := body w |}.

(** [Header.Get]: the first value under the key, or the empty string. *)
Definition Get (h : gmap string (list string)) (key : string) : string :=
  match h !! key with
  | Some (v :: _) => v
  | _ => ""
  end.

End http.

Module io.
Definition WriteString (data : string) : Eff http.ResponseWriter unit :=
  modify (http.Write data).
End io.

(** The line feed of Go's ["\n"]. *)
Definition LF : string := String (ascii_of_nat 10) "".

(** ** [http.ServeMux]

    The multiplexer keeps the registered patterns in a map and, sorted from
    longest to shortest, those that end in a slash.  A path is served by the
    entry registered under exactly that path, else by the longest pattern
    ending in a slash that is a prefix of it, else by [NotFound].  The
    redirect the multiplexer sends for a path that is not in canonical form
    (empty, [.] or [..] segments) is left out: the embedding covers
    canonical paths. *)

Module mux.

Definition HandlerFunc : Type := http.Request -> Eff http.ResponseWriter unit.

Record muxEntry : Type := { h : HandlerFunc; pattern : string }.

Record ServeMux : Type := {
  m : gmap string muxEntry;
  es : list muxEntry
}.

Definition NewServeMux : ServeMux := {| m := ∅; es := [] |}.

Definition ends_in_slash (p : string) : bool :=
  match String.get (Nat.pred (String.length p)) p with
  | Some c => Ascii.eqb c "/"
  | None => false
  end.

(** [appendSorted]: before the first entry with a strictly shorter pattern. *)
Fixpoint appendSorted (es : list muxEntry) (e : muxEntry) : list muxEntry :=
  match es with
  | [] => [e]
  | e' :: rest =>
      if (String.length (pattern e') <? String.length (pattern e))%nat
      then e :: e' :: rest
      else e' :: appendSorted rest e
  end.

(** [mux.HandleFunc(pattern, handler)] *)
Definition HandleFunc (mx : ServeMux) (pat : string) (handler : HandlerFunc)
  : result ServeMux :=
  if String.eqb pat "" then Panic "http: invalid pattern"
  else match m mx !! pat with
       | Some _ => Panic ("http: multiple registrations for " +:+ pat)
       | None =>
           let e := {| h := handler; pattern := pat |} in
           Ok {| m := <[pat := e]> (m mx);
                 es := if ends_in_slash pat then appendSorted (es mx) e
                       else es mx |}
       end.

Fixpoint longest_prefix (es : list muxEntry) (path : string) : option muxEntry :=
  match es with
  | [] => None
  | e :: rest =>
      if strings.HasPrefix path (pattern e) then Some e
      else longest_prefix rest path
  end.

(** [mux.match(path)] *)
Definition match_ (mx : ServeMux) (path : string) : option muxEntry :=
  match m mx !! path with
  | Some e => Some e
  | None => longest_prefix (es mx) path
  end.

(** [http.NotFound] *)
Definition NotFound : HandlerFunc := fun _ =>
  (modify (http.HeaderSet "Content-Type" "text/plain; charset=utf-8") ;;
   modify (http.HeaderSet "X-Content-Type-Options" "nosniff") ;;
   http.WriteHeader http.StatusNotFound ;;
   io.WriteString ("404 page not found" +:+ LF))%eff.

(** [mux.ServeHTTP(w, r)] on a canonical path. *)
Definition ServeHTTP (mx : ServeMux) (r : http.Request)
  : Eff http.ResponseWriter unit :=
  match match_ mx (url.Path (http.URL r)) with
  | Some e => h e r
  | None => NotFound r
  end.

End mux.

(** ** [02_serve_mux.go] *)

Module ServeMux02.

Definition hello_name : mux.HandlerFunc := fun r =>
  (let name := strings.Replace (url.Path (http.URL r)) "/hello/" "" 1 in
   modify (http.HeaderSet "Content-Type" "text/plain") ;;
   http.WriteHeader http.StatusOK ;;
   io.WriteString (fmt.Sprintf ("Hello %s" +:+ LF) [name]))%eff.

Definition hello_world : mux.HandlerFunc := fun r =>
  (modify (http.HeaderSet "Content-Type" "text/plain") ;;
   http.WriteHeader http.StatusOK ;;
   io.WriteString ("Hello world" +:+ LF))%eff.

Definition not_found : mux.HandlerFunc := fun r =>
  (modify (http.HeaderSet "Content-Type" "text/plain") ;;
   http.WriteHeader http.StatusNotFound ;;
   io.WriteString ("Not found" +:+ LF))%eff.

(** The registrations of [main], in program order. *)
Definition handler : result mux.ServeMux :=
  match mux.HandleFunc mux.NewServeMux "/hello/" hello_name with
  | Panic msg => Panic msg
  | Ok mx =>
      match mux.HandleFunc mx "/hello" hello_world with
      | Panic msg => Panic msg
      | Ok mx => mux.HandleFunc mx "/" not_found
      end
  end.

End ServeMux02.

(** ** The response-wrapper example *)

Module ResponseWrapper03.

(** [Response] embeds the writer; its state is the writer's. *)
Definition Response : Type := http.ResponseWriter.

(** [func (r *Response) Text(code int, body string)] *)
Definition Text (code : Z) (body : string) : Eff Response unit :=
  (modify (http.HeaderSet "Content-Type" "text/plain") ;;
   http.WriteHeader code ;;
   io.WriteString (fmt.Sprintf ("%s" +:+ LF) [body]))%eff.

Definition hello_name : mux.HandlerFunc := fun r =>
  let name := strings.Replace (url.Path (http.URL r)) "/hello/" "" 1 in
  Text http.StatusOK (fmt.Sprintf "Hello %s" [name]).

Definition hello_world : mux.HandlerFunc := fun r =>
  Text http.StatusOK "Hello world".

Definition not_found : mux.HandlerFunc := fun r =>
  Text http.StatusNotFound "Not found".

Definition handler : result mux.ServeMux :=
  match mux.HandleFunc mux.NewServeMux "/hello/" hello_name with
  | Panic msg => Panic msg
  | Ok mx =>
      match mux.HandleFunc mx "/hello" hello_world with
      | Panic msg => Panic msg
      | Ok mx => mux.HandleFunc mx "/" not_found
      end
  end.

End ResponseWrapper03.

(** ** [04_custom_handler.go] *)

Module CustomHandler04.

(** [type App struct{}] *)
Record App : Type := { }.

(** [func (a *App) ServeHTTP(w http.ResponseWriter, r *http.Request)] *)
Definition ServeHTTP (a : App) (r : http.Request) : Eff http.ResponseWriter unit :=
  (modify (http.HeaderSet "Content-Type" "text/plain") ;;
   http.WriteHeader http.StatusOK ;;
   io.WriteString ("Hello world" +:+ LF))%eff.

End CustomHandler04.

(** ** [regexp/syntax]: patterns

    The fragment of Go's pattern language covered here: literal bytes,
    [.], [^], [$], escapes of punctuation, [\a \f \n \r \t \v], [\A], [\z],
    the Perl classes [\d \w \s \D \W \S], bracket classes with ranges,
    negation and escapes, capturing groups, [(?:...)], alternation and the
    repetitions [* + ?] with their lazy forms ([*] and [+] over expressions
    that consume at least one byte).  The parser is the one-pass,
    stack-based scheme of the Go library: a pattern that the library rejects
    is a [SyntaxError]; a construct outside the fragment is [Unsupported].
    Bytes stand for runes, which is exact on ASCII. *)

Module syntax.

Inductive perl : Type := Digit | Word | Space.

Inductive citem : Type :=
| CRange (lo hi : ascii)
| CPerl (p : perl) (negated : bool).

Inductive Regexp : Type :=
| EmptyMatch
| Literal (c : ascii)
| CharClass (items : list citem) (negated : bool)
| AnyCharNotNL
| BeginText
| EndText
| Capture (idx : nat) (sub : Regexp)
| Star (greedy : bool) (sub : Regexp)
| Plus (greedy : bool) (sub : Regexp)
| Quest (greedy : bool) (sub : Regexp)
| Concat (r1 r2 : Regexp)
| Alternate (r1 r2 : Regexp).

Definition code (c : ascii) : nat := nat_of_ascii c.

Definition between (lo hi : nat) (c : ascii) : bool :=
  ((lo <=? code c) && (code c <=? hi))%nat.

Definition isalnum (c : ascii) : bool :=
  between 48 57 c || between 65 90 c || between 97 122 c.

Definition in_perl (p : perl) (c : ascii) : bool :=
  match p with
  | Digit => between 48 57 c
  | Word => isalnum c || (code c =? 95)%nat
  | Space => (code c =? 9)%nat || (code c =? 10)%nat || (code c =? 12)%nat
             || (code c =? 13)%nat || (code c =? 32)%nat
  end.

Definition in_item (c : ascii) (it : citem) : bool :=
  match it with
  | CRange lo hi => between (code lo) (code hi) c
  | CPerl p negated => xorb negated (in_perl p c)
  end.

Definition in_class (items : list citem) (negated : bool) (c : ascii) : bool :=
  xorb negated (existsb (in_item c) items).

(** *** Parsing *)

Inductive error : Type :=
| SyntaxError (msg : string)
| Unsupported (what : string).

(** An open group: its capture index (none for [(?:] and for the top
    level), the alternatives already closed by [|] and the items of the
    alternative being read, both most recent first. *)
Record frame : Type := {
  cap : option nat;
  alts : list Regexp;
  items : list Regexp
}.

(** Where a repetition operator stands: after no operator, right after one
    (a [?] makes it lazy), or after one that is complete. *)
Inductive rep : Type := NoRep | RepFresh | RepDone.

(** Inside brackets: [cfirst] until the first item is read (a [[]] there is
    a literal), [ccaret] right after the opening bracket, [clo] a byte that
    may start a range, [cdash] when [clo] was followed by a dash, [cesc]
    after a backslash. *)
Record cstate : Type := {
  cneg : bool;
  ccaret : bool;
  cfirst : bool;
  citems : list citem;
  clo : option ascii;
  cdash : bool;
  cesc : bool
}.

Inductive mode : Type :=
| Normal (r : rep)
| AfterBackslash
| AfterOpen
| AfterOpenQuestion
| InClass (c : cstate).

Record pstate : Type := {
  stack : list frame;
  cur : frame;
  ncap : nat;
  md : mode
}.

Fixpoint mk_concat (rs : list Regexp) : Regexp :=
  match rs with
  | [] => EmptyMatch
  | [r] => r
  | r :: rest => Concat r (mk_concat rest)
  end.

Fixpoint mk_alternate (rs : list Regexp) : Regexp :=
  match rs with
  | [] => EmptyMatch
  | [r] => r
  | r :: rest => Alternate r (mk_alternate rest)
  end.

Definition frame_node (f : frame) : Regexp :=
  let body := mk_alternate (rev (mk_concat (rev (items f)) :: alts f)) in
  match cap f with
  | Some i => Capture i body
  | None => body
  end.

Definition push (r : Regexp) (st : pstate) : pstate :=
  {| stack := stack st;
     cur := {| cap := cap (cur st); alts := alts (cur st);
               items := r :: items (cur st) |};
     ncap := ncap st; md := Normal NoRep |}.

Definition set_mode (m : mode) (st : pstate) : pstate :=
  {| stack := stack st; cur := cur st; ncap := ncap st; md := m |}.

Definition open_group (capturing : bool) (st : pstate) : pstate :=
  let n := if capturing then S (ncap st) else ncap st in
  {| stack := cur st :: stack st;
     cur := {| cap := if capturing then Some n else None;
               alts := []; items := [] |};
     ncap := n; md := Normal NoRep |}.

Definition close_group (st : pstate) : error + pstate :=
  match stack st with
  | [] => inl (SyntaxError "unexpected )")
  | parent :: rest =>
      inr {| stack := rest;
             cur := {| cap := cap parent; alts := alts parent;
                       items := frame_node (cur st) :: items parent |};
             ncap := ncap st; md := Normal NoRep |}
  end.

Definition next_alternative (st : pstate) : pstate :=
  {| stack := stack st;
     cur := {| cap := cap (cur st);
               alts := mk_concat (rev (items (cur st))) :: alts (cur st);
               items := [] |};
     ncap := ncap st; md := Normal NoRep |}.

(** Whether an expression can match the empty string. *)
Fixpoint nullable (r : Regexp) : bool :=
  match r with
  | EmptyMatch | BeginText | EndText => true
  | Literal _ | CharClass _ _ | AnyCharNotNL => false
  | Capture _ sub => nullable sub
  | Star _ _ | Quest _ _ => true
  | Plus _ sub => nullable sub
  | Concat r1 r2 => nullable r1 && nullable r2
  | Alternate r1 r2 => nullable r1 || nullable r2
  end.

(** A repetition operator takes the last item read.  A loop ([loop] is set
    for [*] and [+]) over an expression that can match the empty string is
    kept out of the fragment. *)
Definition repeat (op : bool -> Regexp -> Regexp) (loop : bool) (st : pstate)
  : error + pstate :=
  match items (cur st) with
  | [] => inl (SyntaxError "missing argument to repetition operator")
  | r :: rest =>
      if loop && nullable r
      then inl (Unsupported "loop over an expression that matches the empty string")
      else
        inr {| stack := stack st;
               cur := {| cap := cap (cur st); alts := alts (cur st);
                         items := op true r :: rest |};
               ncap := ncap st; md := Normal RepFresh |}
  end.

Definition make_lazy (st : pstate) : error + pstate :=
  match items (cur st) with
  | Star _ r :: rest | Plus _ r :: rest | Quest _ r :: rest =>
      let lazy :=
        match items (cur st) with
        | Star _ _ :: _ => Star false r
        | Plus _ _ :: _ => Plus false r
        | _ => Quest false r
        end in
      inr {| stack := stack st;
             cur := {| cap := cap (cur st); alts := alts (cur st);
                       items := lazy :: rest |};
             ncap := ncap st; md := Normal RepDone |}
  | _ => inl (SyntaxError "missing argument to repetition operator")
  end.

Definition perl_class (c : ascii) : option citem :=
  match c with
  | "d" => Some (CPerl Digit false)
  | "D" => Some (CPerl Digit true)
  | "w" => Some (CPerl Word false)
  | "W" => Some (CPerl Word true)
  | "s" => Some (CPerl Space false)
  | "S" => Some (CPerl Space true)
  | _ => None
  end%char.

(** The byte an escape of one letter or of punctuation stands for. *)
Definition escaped_byte (c : ascii) : error + ascii :=
  match c with
  | "a" => inr (ascii_of_nat 7)
  | "f" => inr (ascii_of_nat 12)
  | "n" => inr (ascii_of_nat 10)
  | "r" => inr (ascii_of_nat 13)
  | "t" => inr (ascii_of_nat 9)
  | "v" => inr (ascii_of_nat 11)
  | _ =>
      if (code c <? 128)%nat && negb (isalnum c) then inr c
      else if between 48 57 c || (code c =? 120)%nat
      then inl (Unsupported "octal or hexadecimal escape")
      else if (128 <=? code c)%nat then inl (Unsupported "non-ASCII byte")
      else inl (SyntaxError "invalid escape sequence")
  end%char.

Definition step_escape (st : pstate) (c : ascii) : error + pstate :=
  match perl_class c with
  | Some it => inr (push (CharClass [it] false) st)
  | None =>
      match c with
      | "A" => inr (push BeginText st)
      | "z" => inr (push EndText st)
      | "b" | "B" | "C" | "Q" | "E" | "p" | "P" =>
          inl (Unsupported "escape outside the fragment")
      | _ =>
          match escaped_byte c with
          | inr b => inr (push (Literal b) st)
          | inl e => inl e
          end
      end%char
  end.

Definition set_class (c : cstate) (st : pstate) : pstate :=
  set_mode (InClass c) st.

(** What is pending in the brackets, flushed into the item list. *)
Definition flushed (c : cstate) : list citem :=
  match clo c with
  | Some l =>
      if cdash c then citems c ++ [CRange l l; CRange "-" "-"]
      else citems c ++ [CRange l l]
  | None => citems c
  end.

(** A byte read inside brackets, plain or escaped.  [dash] tells a plain
    [-], the only one that can make a range. *)
Definition feed_byte (c : cstate) (b : ascii) (dash : bool) : error + cstate :=
  match clo c with
  | Some l =>
      if cdash c then
        if (code l <=? code b)%nat then
          inr {| cneg := cneg c; ccaret := false; cfirst := false;
                 citems := citems c ++ [CRange l b]; clo := None;
                 cdash := false; cesc := false |}
        else inl (SyntaxError "invalid character class range")
      else if dash then
        inr {| cneg := cneg c; ccaret := false; cfirst := false;
               citems := citems c; clo := Some l; cdash := true;
               cesc := false |}
      else
        inr {| cneg := cneg c; ccaret := false; cfirst := false;
               citems := citems c ++ [CRange l l]; clo := Some b;
               cdash := false; cesc := false |}
  | None =>
      inr {| cneg := cneg c; ccaret := false; cfirst := false;
             citems := citems c; clo := Some b; cdash := false;
             cesc := false |}
  end.

(** A Perl class read inside brackets; it cannot end a range. *)
Definition feed_perl (c : cstate) (it : citem) : error + cstate :=
  if cdash c then inl (SyntaxError "invalid escape sequence")
  else inr {| cneg := cneg c; ccaret := false; cfirst := false;
              citems := flushed c ++ [it]; clo := None; cdash := false;
              cesc := false |}.

Definition in_brackets (f : error + cstate) (st : pstate) : error + pstate :=
  match f with
  | inr c => inr (set_class c st)
  | inl e => inl e
  end.

Definition step_class (st : pstate) (c : cstate) (b : ascii) : error + pstate :=
  if cesc c then
    match perl_class b with
    | Some it => in_brackets (feed_perl c it) st
    | None =>
        match b with
        | "p" | "P" => inl (Unsupported "Unicode class")
        | _ =>
            match escaped_byte b with
            | inr x => in_brackets (feed_byte c x false) st
            | inl e => inl e
            end
        end%char
    end
  else
    match b with
    | "^" =>
        if ccaret c then
          inr (set_class {| cneg := true; ccaret := false; cfirst := true;
                            citems := []; clo := None; cdash := false;
                            cesc := false |} st)
        else in_brackets (feed_byte c b false) st
    | "]" =>
        if cfirst c then in_brackets (feed_byte c b false) st
        else inr (push (CharClass (flushed c) (cneg c)) st)
    | "\" =>
        inr (set_class {| cneg := cneg c; ccaret := false; cfirst := cfirst c;
                          citems := citems c; clo := clo c; cdash := cdash c;
                          cesc := true |} st)
    | "[" => inl (Unsupported "bracket inside a class")
    | "-" => in_brackets (feed_byte c b true) st
    | _ =>
        if (128 <=? code b)%nat then inl (Unsupported "non-ASCII byte")
        else in_brackets (feed_byte c b false) st
    end%char.

Definition class_start : cstate :=
  {| cneg := false; ccaret := true; cfirst := true; citems := [];
     clo := None; cdash := false; cesc := false |}.

Definition step_normal (st : pstate) (r : rep) (c : ascii) : error + pstate :=
  match c with
  | "(" => inr (set_mode AfterOpen st)
  | ")" => close_group st
  | "|" => inr (next_alternative st)
  | "*" | "+" | "?" =>
      match r with
      | NoRep =>
          match c with
          | "*" => repeat Star true st
          | "+" => repeat Plus true st
          | _ => repeat Quest false st
          end%char
      | RepFresh =>
          match c with
          | "?" => make_lazy st
          | _ => inl (SyntaxError "invalid nested repetition operator")
          end%char
      | RepDone => inl (SyntaxError "invalid nested repetition operator")
      end
  | "{" => inl (Unsupported "counted repetition")
  | "[" => inr (set_class class_start st)
  | "." => inr (push AnyCharNotNL st)
  | "^" => inr (push BeginText st)
  | "$" => inr (push EndText st)
  | "\" => inr (set_mode AfterBackslash st)
  | _ =>
      if (128 <=? code c)%nat then inl (Unsupported "non-ASCII byte")
      else inr (push (Literal c) st)
  end%char.

Definition step (st : pstate) (c : ascii) : error + pstate :=
  match md st with
  | Normal r => step_normal st r c
  | AfterBackslash => step_escape st c
  | AfterOpen =>
      match c with
      | "?" => inr (set_mode AfterOpenQuestion st)
      | _ => step_normal (open_group true st) NoRep c
      end%char
  | AfterOpenQuestion =>
      match c with
      | ":" => inr (open_group false st)
      | _ => inl (Unsupported "group flags or names")
      end%char
  | InClass cs => step_class st cs c
  end.

Fixpoint steps (st : pstate) (pattern : string) : error + pstate :=
  match pattern with
  | EmptyString => inr st
  | String c rest =>
      match step st c with
      | inr st' => steps st' rest
      | inl e => inl e
      end
  end.

Definition start : pstate :=
  {| stack := []; cur := {| cap := None; alts := []; items := [] |};
     ncap := 0; md := Normal NoRep |}.

(** The pattern read to its end: every bracket and group must be closed. *)
Definition finish (st : pstate) : error + (Regexp * nat) :=
  match md st with
  | Normal _ =>
      match stack st with
      | [] => inr (frame_node (cur st), ncap st)
      | _ :: _ => inl (SyntaxError "missing closing )")
      end
  | AfterBackslash => inl (SyntaxError "trailing backslash at end of expression")
  | AfterOpen => inl (SyntaxError "missing closing )")
  | AfterOpenQuestion => inl (SyntaxError "missing closing )")
  | InClass _ => inl (SyntaxError "missing closing ]")
  end.

(** [syntax.Parse]: the expression and its number of capturing groups. *)
Definition Parse (pattern : string) : error + (Regexp * nat) :=
  match steps start pattern with
  | inr st => finish st
  | inl e => inl e
  end.

(** Whether an expression has an anchor to the start of the text ([^] or
    [\A]), or to its end ([$] or [\z]). *)
Fixpoint has_begin (r : Regexp) : bool :=
  match r with
  | BeginText => true
  | EmptyMatch | Literal _ | CharClass _ _ | AnyCharNotNL | EndText => false
  | Capture _ sub | Star _ sub | Plus _ sub | Quest _ sub => has_begin sub
  | Concat r1 r2 | Alternate r1 r2 => has_begin r1 || has_begin r2
  end.

Fixpoint has_end (r : Regexp) : bool :=
  match r with
  | EndText => true
  | EmptyMatch | Literal _ | CharClass _ _ | AnyCharNotNL | BeginText => false
  | Capture _ sub | Star _ sub | Plus _ sub | Quest _ sub => has_end sub
  | Concat r1 r2 | Alternate r1 r2 => has_end r1 || has_end r2
  end.

End syntax.

(** ** [regexp]: leftmost-first matching with submatches

    The search tries each start offset from the left and, at an offset,
    prefers the left alternative and the greedy (or lazy) choice of each
    repetition, as the backtracker of the Go library does.  The capture
    array holds, for group [k], its start at index [2k] and its end at
    [2k+1], [-1] while unset; group 0 is the whole match. *)

Module regexp.

Record Regexp : Type := {
  expr : string;
  prog : syntax.Regexp;
  numSubexp : nat
}.

(** [regexp.Compile] *)
Definition Compile (pattern : string) : syntax.error + Regexp :=
  match syntax.Parse pattern with
  | inr (re, n) => inr {| expr := pattern; prog := re; numSubexp := n |}
  | inl e => inl e
  end.

(** [regexp.MustCompile]: [Compile], panicking on an error.  A pattern
    outside the fragment is an error here, also where the library compiles
    it: what is proved of this instance is about patterns of the fragment. *)
Definition MustCompile (pattern : string) : result Regexp :=
  match Compile pattern with
  | inr re => Ok re
  | inl _ => Panic ("regexp: Compile(" +:+ pattern +:+ "): error")
  end.

(** The rest of the match: offset, text from there on, capture array. *)
Definition cont : Type := nat -> list ascii -> list Z -> option (list Z).

Definition orelse (a b : option (list Z)) : option (list Z) :=
  match a with
  | Some caps => Some caps
  | None => b
  end.

(** Zero or more rounds of [round]; a round that consumes nothing is
    dropped, so [fuel], the length of the text left, is never exhausted
    before the text is. *)
Fixpoint star (round : nat -> list ascii -> list Z -> cont -> option (list Z))
  (greedy : bool) (k : cont) (fuel : nat)
  (i : nat) (text : list ascii) (caps : list Z) : option (list Z) :=
  match fuel with
  | O => k i text caps
  | S fuel' =>
      let again :=
        round i text caps
          (fun j text' caps' =>
             if (i <? j)%nat then star round greedy k fuel' j text' caps'
             else None) in
      if greedy then orelse again (k i text caps)
      else orelse (k i text caps) again
  end.

Fixpoint run (re : syntax.Regexp) (i : nat) (text : list ascii)
  (caps : list Z) (k : cont) : option (list Z) :=
  match re with
  | syntax.EmptyMatch => k i text caps
  | syntax.Literal c =>
      match text with
      | b :: text' => if Ascii.eqb c b then k (S i) text' caps else None
      | [] => None
      end
  | syntax.CharClass items negated =>
      match text with
      | b :: text' =>
          if syntax.in_class items negated b then k (S i) text' caps else None
      | [] => None
      end
  | syntax.AnyCharNotNL =>
      match text with
      | b :: text' =>
          if (syntax.code b =? 10)%nat then None else k (S i) text' caps
      | [] => None
      end
  | syntax.BeginText => if (i =? 0)%nat then k i text caps else None
  | syntax.EndText =>
      match text with
      | [] => k i text caps
      | _ :: _ => None
      end
  | syntax.Capture idx sub =>
      run sub i text (<[(2 * idx)%nat := Z.of_nat i]> caps)
        (fun j text' caps' =>
           k j text' (<[(2 * idx + 1)%nat := Z.of_nat j]> caps'))
  | syntax.Star greedy sub =>
      star (run sub) greedy k (length text) i text caps
  | syntax.Plus greedy sub =>
      run sub i text caps
        (fun j text' caps' =>
           star (run sub) greedy k (length text') j text' caps')
  | syntax.Quest greedy sub =>
      if greedy then orelse (run sub i text caps k) (k i text caps)
      else orelse (k i text caps) (run sub i text caps k)
  | syntax.Concat r1 r2 =>
      run r1 i text caps (fun j text' caps' => run r2 j text' caps' k)
  | syntax.Alternate r1 r2 =>
      orelse (run r1 i text caps k) (run r2 i text caps k)
  end.

Definition accept : cont := fun _ _ caps => Some caps.

(** The leftmost offset at which the expression matches. *)
Fixpoint search (re : Regexp) (i : nat) (text : list ascii) : option (list Z) :=
  match run (syntax.Capture 0 (prog re)) i text
          (replicate (2 * S (numSubexp re)) (-1)) accept with
  | Some caps => Some caps
  | None =>
      match text with
      | [] => None
      | _ :: text' => search re (S i) text'
      end
  end.

(** [s[lo:hi]] for the offsets of group [k]; the empty string when the
    group took no part in the match. *)
Definition group (s : string) (caps : list Z) (k : nat) : string :=
  match caps !! (2 * k)%nat, caps !! (2 * k + 1)%nat with
  | Some lo, Some hi =>
      if (0 <=? lo) && (lo <=? hi)
      then String.substring (Z.to_nat lo) (Z.to_nat (hi - lo)) s
      else ""
  | _, _ => ""
  end.

(** [re.FindStringSubmatch(s)]: [nil] when there is no match, else the
    text of the match followed by the text of each group. *)
Definition FindStringSubmatch (re : Regexp) (s : string) : list string :=
  match search re 0 (list_ascii_of_string s) with
  | None => []
  | Some caps => map (group s caps) (seq 0 (S (numSubexp re)))
  end.

(** [re.NumSubexp()] *)
Definition NumSubexp (re : Regexp) : nat := numSubexp re.

End regexp.

(** ** What the routers need from the [regexp] package

    The routers call [MustCompile], [FindStringSubmatch] and nothing else;
    [NumSubexp] names the number of capturing groups.  A match is a slice
    of [1 + NumSubexp] strings: the text of the match, then the text of
    each group in the order of their opening parentheses. *)

Class RegexpLib : Type := {
  Regexp : Type;
  MustCompile : string -> result Regexp;
  FindStringSubmatch : Regexp -> string -> list string;
  NumSubexp : Regexp -> nat;
  FindStringSubmatch_length : forall re s,
    FindStringSubmatch re s <> [] ->
    length (FindStringSubmatch re s) = S (NumSubexp re)
}.

(** Which handler a dispatch called, and with which captures. *)
Inductive Target : Type :=
| Routed (i : nat)
| Default.

Record Invocation : Type := { target : Target; params : list string }.

(** One request served: the response on the wire, or the panic that
    aborted the handler. *)
Inductive Exchange : Type :=
| Served (resp : http.Response)
| Aborted (msg : string).

(** ** The regular-expression router with [Request] and [Response] *)

Module RegexRouter.

Section Router.
Context {L : RegexpLib}.

(** [type Request struct { *http.Request; Params []string }] *)
Record Request : Type := { Request_ : http.Request; Params : list string }.

(** [type Response struct { http.ResponseWriter }] *)
Definition Response : Type := http.ResponseWriter.

(** [type Handler func(resp *Response, req *Request)] *)
Definition Handler : Type := Request -> Eff Response unit.

Record Route : Type := { Pattern : Regexp; Handler_ : Handler }.

Record App : Type := { Routes : list Route; DefaultRoute : Handler }.

(** [func (r *Response) Text(code int, body string)] *)
Definition Text (code : Z) (body : string) : Eff Response unit :=
  (modify (http.HeaderSet "Content-Type" "text/plain") ;;
   http.WriteHeader code ;;
   io.WriteString (fmt.Sprintf ("%s" +:+ LF) [body]))%eff.

(** [func NewApp() *App] *)
Definition NewApp : App :=
  {| Routes := [];
     DefaultRoute := fun req => Text http.StatusNotFound "Not found" |}.

(** [func (a *App) Handle(pattern string, handler Handler)], on the [App]
    the receiver points to. *)
Definition Handle (pattern : string) (handler : Handler) : Eff App unit :=
  fun a =>
    match MustCompile pattern with
    | Panic msg => (Panic msg, a)
    | Ok re =>
        let route := {| Pattern := re; Handler_ := handler |} in
        (Ok tt, {| Routes := Routes a ++ [route];
                   DefaultRoute := DefaultRoute a |})
    end.

(** What [ServeHTTP] works on: the [App] behind its receiver, the writer it
    is handed, and the record of the handlers called so far. *)
Record Serving : Type := {
  a : App;
  w : http.ResponseWriter;
  ran : list Invocation
}.

(** A call of a handler value on the writer and the request. *)
Definition call (t : Target) (handler : Handler) (req : Request)
  : Eff Serving unit :=
  fun st =>
    let (res, w') := handler req (w st) in
    (res, {| a := a st; w := w';
             ran := ran st ++ [{| target := t; params := Params req |}] |}).

(** The [for _, rt := range a.Routes] loop from route [i] on; [true] when
    the body returned from [ServeHTTP]. *)
Fixpoint range_routes (routes : list Route) (i : nat) (r : http.Request)
  (req : Request) : Eff Serving bool :=
  match routes with
  | [] => ret false
  | rt :: rest =>
      let matches := FindStringSubmatch (Pattern rt) (url.Path (http.URL r)) in
      if (0 <? length matches)%nat then
        let req :=
          if (1 <? length matches)%nat
          then {| Request_ := Request_ req; Params := drop 1 matches |}
          else req in
        (call (Routed i) (Handler_ rt) req ;; ret true)%eff
      else range_routes rest (S i) r req
  end.

(** [func (a *App) ServeHTTP(w http.ResponseWriter, r *http.Request)] *)
Definition ServeHTTP (r : http.Request) : Eff Serving unit :=
  fun st =>
    let req := {| Request_ := r; Params := [] |} in
    (returned <- range_routes (Routes (a st)) 0 r req ;;
     if returned : bool then ret tt
     else fun st' => call Default (DefaultRoute (a st')) req st')%eff st.

(** The handlers registered by [main]. *)
Definition hello_world : Handler := fun req =>
  Text http.StatusOK "Hello world".

Definition hello_name : Handler := fun req =>
  match Params req !! 0%nat with
  | Some name => Text http.StatusOK (fmt.Sprintf "Hello %s" [name])
  | None => panic "runtime error: index out of range [0] with length 0"
  end.

(** The registrations of [main], in program order. *)
Definition setup : Eff App unit :=
  (Handle "^/hello$" hello_world ;;
   Handle "/hello/([\w\._-]+)$" hello_name)%eff.

(** A request served on a fresh writer; a handler that wrote nothing gets
    the status line sent for it. *)
Definition serve_one (app : App) (r : http.Request) : Exchange * App :=
  let (res, st) := ServeHTTP r {| a := app; w := http.NewWriter; ran := [] |} in
  match res with
  | Ok _ => (Served (http.response (http.send_status http.StatusOK (w st))), a st)
  | Panic msg => (Aborted msg, a st)
  end.

(** [http.ListenAndServe(addr, app)] over the requests that come in, one
    after the other. *)
Fixpoint ListenAndServe (app : App) (incoming : list http.Request)
  : list Exchange :=
  match incoming with
  | [] => []
  | r :: rest =>
      let (x, app') := serve_one app r in
      x :: ListenAndServe app' rest
  end.

(** [main]: a panic during the registrations ends the process before the
    server listens. *)
Definition main (incoming : list http.Request) : result (list Exchange) :=
  match setup NewApp with
  | (Ok _, app) => Ok (ListenAndServe app incoming)
  | (Panic msg, _) => Panic msg
  end.

End Router.

End RegexRouter.

(** ** The regular-expression router with a [Context] *)

Module ContextRouter.

Section Router.
Context {L : RegexpLib}.

(** [type Context struct { http.ResponseWriter; *http.Request; Params []string }]:
    the embedded writer is the state the context's methods act on. *)
Record Context : Type := { Request_ : http.Request; Params : list string }.

(** [type Handler func(ctx *Context)] *)
Definition Handler : Type := Context -> Eff http.ResponseWriter unit.

Record Route : Type := { Pattern : Regexp; Handler_ : Handler }.

Record App : Type := { Routes : list Route; DefaultRoute : Handler }.

(** [func (c *Context) Text(code int, body string)] *)
Definition Text (code : Z) (body : string) : Eff http.ResponseWriter unit :=
  (modify (http.HeaderSet "Content-Type" "text/plain") ;;
   http.WriteHeader code ;;
   io.WriteString (fmt.Sprintf ("%s" +:+ LF) [body]))%eff.

(** [func NewApp() *App] *)
Definition NewApp : App :=
  {| Routes := [];
     DefaultRoute := fun ctx => Text http.StatusNotFound "Not found" |}.

(** [func (a *App) Handle(pattern string, handler Handler)] *)
Definition Handle (pattern : string) (handler : Handler) : Eff App unit :=
  fun a =>
    match MustCompile pattern with
    | Panic msg => (Panic msg, a)
    | Ok re =>
        let route := {| Pattern := re; Handler_ := handler |} in
        (Ok tt, {| Routes := Routes a ++ [route];
                   DefaultRoute := DefaultRoute a |})
    end.

Record Serving : Type := {
  a : App;
  w : http.ResponseWriter;
  ran : list Invocation
}.

Definition call (t : Target) (handler : Handler) (ctx : Context)
  : Eff Serving unit :=
  fun st =>
    let (res, w') := handler ctx (w st) in
    (res, {| a := a st; w := w';
             ran := ran st ++ [{| target := t; params := Params ctx |}] |}).

(** The loop over [a.Routes] from route [i] on; [true] when the body
    returned from [ServeHTTP]. *)
Fixpoint range_routes (routes : list Route) (i : nat) (ctx : Context)
  : Eff Serving bool :=
  match routes with
  | [] => ret false
  | rt :: rest =>
      let matches :=
        FindStringSubmatch (Pattern rt) (url.Path (http.URL (Request_ ctx))) in
      if (0 <? length matches)%nat then
        let ctx :=
          if (1 <? length matches)%nat
          then {| Request_ := Request_ ctx; Params := drop 1 matches |}
          else ctx in
        (call (Routed i) (Handler_ rt) ctx ;; ret true)%eff
      else range_routes rest (S i) ctx
  end.

(** [func (a *App) ServeHTTP(w http.ResponseWriter, r *http.Request)] *)
Definition ServeHTTP (r : http.Request) : Eff Serving unit :=
  fun st =>
    let ctx := {| Request_ := r; Params := [] |} in
    (returned <- range_routes (Routes (a st)) 0 ctx ;;
     if returned : bool then ret tt
     else fun st' => call Default (DefaultRoute (a st')) ctx st')%eff st.

Definition hello_world : Handler := fun ctx =>
  Text http.StatusOK "Hello world".

Definition hello_name : Handler := fun ctx =>
  match Params ctx !! 0%nat with
  | Some name => Text http.StatusOK (fmt.Sprintf "Hello %s" [name])
  | None => panic "runtime error: index out of range [0] with length 0"
  end.

Definition setup : Eff App unit :=
  (Handle "^/hello$" hello_world ;;
   Handle "/hello/([\w\._-]+)$" hello_name)%eff.

Definition serve_one (app : App) (r : http.Request) : Exchange * App :=
  let (res, st) := ServeHTTP r {| a := app; w := http.NewWriter; ran := [] |} in
  match res with
  | Ok _ => (Served (http.response (http.send_status http.StatusOK (w st))), a st)
  | Panic msg => (Aborted msg, a st)
  end.

Fixpoint ListenAndServe (app : App) (incoming : list http.Request)
  : list Exchange :=
  match incoming with
  | [] => []
  | r :: rest =>
      let (x, app') := serve_one app r in
      x :: ListenAndServe app' rest
  end.

Definition main (incoming : list http.Request) : result (list Exchange) :=
  match setup NewApp with
  | (Ok _, app) => Ok (ListenAndServe app incoming)
  | (Panic msg, _) => Panic msg
  end.

End Router.

End ContextRouter.

#[export, refine] Instance go_regexp : RegexpLib := {|
  Regexp := regexp.Regexp;
  MustCompile := regexp.MustCompile;
  FindStringSubmatch := regexp.FindStringSubmatch;
  NumSubexp := regexp.NumSubexp
|}.
Proof.
  intros re s. unfold regexp.FindStringSubmatch, regexp.NumSubexp.
  destruct (regexp.search re 0 (list_ascii_of_string s)) as [caps|]; [|done].
  intros _. by rewrite length_map, length_seq.
Defined.

(** ** The demonstrated server *)

(** A [GET] request for a path. *)
Definition get (p : string) : http.Request :=
  {| http.Method := "GET"; http.URL := {| url.Path := p |};
     http.Host := "localhost:9000" |}.

(** The two patterns of [main], compiled. *)
Definition hello_re : regexp.Regexp :=
  Eval vm_compute in
    match regexp.Compile "^/hello$" with
    | inr re => re
    | inl _ => {| regexp.expr := ""; regexp.prog := syntax.EmptyMatch;
                  regexp.numSubexp := 0 |}
    end.

Definition hello_name_re : regexp.Regexp :=
  Eval vm_compute in
    match regexp.Compile "/hello/([\w\._-]+)$" with
    | inr re => re
    | inl _ => {| regexp.expr := ""; regexp.prog := syntax.EmptyMatch;
                  regexp.numSubexp := 0 |}
    end.

(** The route table [main] builds, with the Go matcher. *)
Definition demo_app : RegexRouter.App :=
  {| RegexRouter.Routes :=
       [{| RegexRouter.Pattern := hello_re;
           RegexRouter.Handler_ := RegexRouter.hello_world |};
        {| RegexRouter.Pattern := hello_name_re;
           RegexRouter.Handler_ := RegexRouter.hello_name |}];
     RegexRouter.DefaultRoute := RegexRouter.DefaultRoute RegexRouter.NewApp |}.

Definition demo_ctx_app : ContextRouter.App :=
  {| ContextRouter.Routes :=
       [{| ContextRouter.Pattern := hello_re;
           ContextRouter.Handler_ := ContextRouter.hello_world |};
        {| ContextRouter.Pattern := hello_name_re;
           ContextRouter.Handler_ := ContextRouter.hello_name |}];
     ContextRouter.DefaultRoute := ContextRouter.DefaultRoute ContextRouter.NewApp |}.

(** A dispatch about to start: a fresh writer, no handler called yet. *)
Definition fresh (app : RegexRouter.App) : RegexRouter.Serving :=
  {| RegexRouter.a := app; RegexRouter.w := http.NewWriter;
     RegexRouter.ran := [] |}.

Definition ctx_fresh (app : ContextRouter.App) : ContextRouter.Serving :=
  {| ContextRouter.a := app; ContextRouter.w := http.NewWriter;
     ContextRouter.ran := [] |}.

(** The response [Text] produces on a fresh writer. *)
Definition plain (code : Z) (body : string) : http.Response :=
  {| http.StatusCode := code;
     http.RespHeader := {["Content-Type" := ["text/plain"]]};
     http.Body := body +:+ LF |}.

(** ** From the first router to the second

    The router with a [Context] is the router with [Request] and
    [Response] with the two handler arguments folded into one: a handler
    of the first kind, read as a handler of the second. *)

Definition as_context_handler (h : RegexRouter.Handler) : ContextRouter.Handler :=
  fun ctx =>
    h {| RegexRouter.Request_ := ContextRouter.Request_ ctx;
         RegexRouter.Params := ContextRouter.Params ctx |}.

Definition as_context_route {L : RegexpLib} (rt : RegexRouter.Route)
  : ContextRouter.Route :=
  {| ContextRouter.Pattern := RegexRouter.Pattern rt;
     ContextRouter.Handler_ := as_context_handler (RegexRouter.Handler_ rt) |}.

Definition as_context_app {L : RegexpLib} (app : RegexRouter.App)
  : ContextRouter.App :=
  {| ContextRouter.Routes := map as_context_route (RegexRouter.Routes app);
     ContextRouter.DefaultRoute :=
       as_context_handler (RegexRouter.DefaultRoute app) |}.

Definition as_context_serving {L : RegexpLib} (st : RegexRouter.Serving)
  : ContextRouter.Serving :=
  {| ContextRouter.a := as_context_app (RegexRouter.a st);
     ContextRouter.w := RegexRouter.w st;
     ContextRouter.ran := RegexRouter.ran st |}.

(** ** The router with handlers that are closures

    A Go handler is a function value: besides the response and the request
    it is handed, it can read and write the variables it captured.  Here
    those variables are a store of type [Env], threaded through the
    handlers next to the writer and kept from one request to the next; the
    route table and the loop of [ServeHTTP] are those of the router with
    [Request] and [Response].  With nothing captured this is that router. *)

Module ClosureRouter.

Section Router.
Context {L : RegexpLib} {Env : Type}.

(** [type Handler func(resp *Response, req *Request)], as a closure. *)
Definition Handler : Type :=
  RegexRouter.Request -> Eff (Env * http.ResponseWriter) unit.

Record Route : Type := { Pattern : Regexp; Handler_ : Handler }.

Record App : Type := { Routes : list Route; DefaultRoute : Handler }.

(** What [ServeHTTP] works on: the [App] behind its receiver, the captured
    variables and the writer it is handed. *)
Record Serving : Type := {
  a : App;
  env : Env;
  w : http.ResponseWriter
}.

Definition call (handler : Handler) (req : RegexRouter.Request)
  : Eff Serving unit :=
  fun st =>
    let (res, ew) := handler req (env st, w st) in
    (res, {| a := a st; env := fst ew; w := snd ew |}).

Fixpoint range_routes (routes : list Route) (r : http.Request)
  (req : RegexRouter.Request) : Eff Serving bool :=
  match routes with
  | [] => ret false
  | rt :: rest =>
      let matches := FindStringSubmatch (Pattern rt) (url.Path (http.URL r)) in
      if (0 <? length matches)%nat then
        let req :=
          if (1 <? length matches)%nat
          then {| RegexRouter.Request_ := RegexRouter.Request_ req;
                  RegexRouter.Params := drop 1 matches |}
          else req in
        (call (Handler_ rt) req ;; ret true)%eff
      else range_routes rest r req
  end.

(** [func (a *App) ServeHTTP(w http.ResponseWriter, r *http.Request)] *)
Definition ServeHTTP (r : http.Request) : Eff Serving unit :=
  fun st =>
    let req := {| RegexRouter.Request_ := r; RegexRouter.Params := [] |} in
    (returned <- range_routes (Routes (a st)) r req ;;
     if returned : bool then ret tt
     else fun st' => call (DefaultRoute (a st')) req st')%eff st.

(** A request served on a fresh writer, with the captured variables as the
    requests before it left them. *)
Definition serve_one (app : App) (e : Env) (r : http.Request)
  : Exchange * (App * Env) :=
  let (res, st) := ServeHTTP r {| a := app; env := e; w := http.NewWriter |} in
  match res with
  | Ok _ =>
      (Served (http.response (http.send_status http.StatusOK (w st))),
       (a st, env st))
  | Panic msg => (Aborted msg, (a st, env st))
  end.

(** [http.ListenAndServe(addr, app)] over the requests that come in. *)
Fixpoint ListenAndServe (app : App) (e : Env) (incoming : list http.Request)
  : list Exchange :=
  match incoming with
  | [] => []
  | r :: rest =>
      let (x, ae) := serve_one app e r in
      x :: ListenAndServe (fst ae) (snd ae) rest
  end.

(** A handler that captured nothing. *)
Definition closed (h : RegexRouter.Handler) : Handler :=
  fun req ew =>
    let (res, w') := h req (snd ew) in (res, (fst ew, w')).

Definition closed_app (app : RegexRouter.App) : App :=
  {| Routes :=
       map (fun rt => {| Pattern := RegexRouter.Pattern rt;
                         Handler_ := closed (RegexRouter.Handler_ rt) |})
           (RegexRouter.Routes app);
     DefaultRoute := closed (RegexRouter.DefaultRoute app) |}.


End Router.

End ClosureRouter.



(** ** Names the demonstrated pattern accepts

    The bytes of the class [[\w\._-]]: letters, digits, underscore, dot and
    dash; a name is a non-empty string of them. *)

Definition name_byte (c : ascii) : bool :=
  syntax.isalnum c || Ascii.eqb c "_" || Ascii.eqb c "." || Ascii.eqb c "-".

Definition valid_name (name : string) : bool :=
  negb (String.eqb name "") && forallb name_byte (list_ascii_of_string name).

(** The bytes of the literal prefix of the second pattern, and the capture
    array of a match of that pattern at offset [off] with a name of [n]
    bytes: the match is [off, off + 7 + n), the group [off + 7, off + 7 + n). *)
Definition hello_prefix : list ascii := list_ascii_of_string "/hello/".

Definition name_caps (off n : nat) : list Z :=
  [Z.of_nat off; Z.of_nat (off + 7 + n); Z.of_nat (off + 7);
   Z.of_nat (off + 7 + n)].

(** ** Canonical paths

    The paths the multiplexer serves without a redirect: rooted, with no
    empty element before the last one and no element [.] or [..].  They are
    the paths the embedding of the multiplexer covers. *)

Fixpoint segments (s : string) : list string :=
  match s with
  | EmptyString => [""]
  | String c s' =>
      if Ascii.eqb c "/" then "" :: segments s'
      else match segments s' with
           | seg :: rest => String c seg :: rest
           | [] => [String c ""]
           end
  end.

Definition dot_segment (seg : string) : bool :=
  String.eqb seg "." || String.eqb seg "..".

Fixpoint clean_segments (segs : list string) : bool :=
  match segs with
  | [] => true
  | [last] => negb (dot_segment last)
  | seg :: rest =>
      negb (String.eqb seg "") && negb (dot_segment seg) && clean_segments rest
  end.

Definition canonical (p : string) : bool :=
  match p with
  | String "/" rest => clean_segments (segments rest)
  | _ => false
  end.

(** * Properties *)

(** ** The response writer and the text helper *)

Lemma Sprintf_line (body : string) :
  fmt.Sprintf ("%s" +:+ LF) [body] = body +:+ LF.
Proof. reflexivity. Qed.

Lemma body_code_not_informational (code : Z) :
  http.bodyAllowedForStatus code = true -> http.informational code = false.
Proof.
  unfold http.bodyAllowedForStatus, http.informational.
  destruct ((100 <=? code) && (code <=? 199)); [discriminate | done].
Qed.

(** [WriteHeader] returns normally for a code of three digits, and for any
    code once the status line is out. *)
Lemma WriteHeader_returns (code : Z) (w : http.ResponseWriter) :
  http.validCode code = true \/ http.wroteHeader w = true ->
  fst (http.WriteHeader code w) = Ok tt.
Proof.
  unfold http.WriteHeader, http.record. cbn [http.wroteHeader].
  intros [Hv | Hw].
  - rewrite Hv. cbn [negb].
    destruct (http.wroteHeader w); [done|].
    by destruct (http.informational code).
  - by rewrite Hw.
Qed.

Lemma WriteHeader_panics (code : Z) (w : http.ResponseWriter) :
  http.validCode code = false ->
  http.wroteHeader w = false ->
  http.WriteHeader code w =
  (Panic (http.invalidCode code), http.record (http.CallWriteHeader code) w).
Proof.
  unfold http.WriteHeader, http.record. cbn [http.wroteHeader].
  by intros -> ->.
Qed.

Lemma WriteHeader_final (code : Z) (w : http.ResponseWriter) :
  http.validCode code = true ->
  http.informational code = false ->
  http.WriteHeader code w =
  (Ok tt, http.send_status code (http.record (http.CallWriteHeader code) w)).
Proof.
  unfold http.WriteHeader, http.send_status, http.record.
  cbn [http.wroteHeader]. intros -> ->. cbn [negb].
  by destruct (http.wroteHeader w).
Qed.

Lemma WriteHeader_calls (code : Z) (w : http.ResponseWriter) :
  http.calls (snd (http.WriteHeader code w)) =
  (http.calls w ++ [http.CallWriteHeader code])%list.
Proof.
  unfold http.WriteHeader, http.send_status, http.record.
  cbn [http.wroteHeader].
  destruct (http.wroteHeader w); [done|].
  destruct (negb (http.validCode code)); [done|].
  by destruct (http.informational code).
Qed.

Lemma Write_calls (data : string) (w : http.ResponseWriter) :
  http.calls (http.Write data w) = (http.calls w ++ [http.CallWrite data])%list.
Proof.
  unfold http.Write.
  match goal with
  | |- context [http.bodyAllowedForStatus ?x] =>
      destruct (http.bodyAllowedForStatus x)
  end;
    unfold http.send_status, http.record;
    destruct w as [h [] s sh b i c]; reflexivity.
Qed.

Lemma HeaderSet_calls (k v : string) (w : http.ResponseWriter) :
  http.calls (http.HeaderSet k v w) =
  (http.calls w ++ [http.CallHeaderSet k v])%list.
Proof. reflexivity. Qed.

(** The helper as the three calls, when [WriteHeader] returns. *)
Lemma Text_run (code : Z) (body : string) (w : http.ResponseWriter) :
  http.validCode code = true \/ http.wroteHeader w = true ->
  ResponseWrapper03.Text code body w =
  (Ok tt, http.Write (body +:+ LF)
            (snd (http.WriteHeader code
                    (http.HeaderSet "Content-Type" "text/plain" w)))).
Proof.
  intros Hok.
  pose proof (WriteHeader_returns code
                (http.HeaderSet "Content-Type" "text/plain" w) Hok) as Hret.
  cbv beta iota delta [ResponseWrapper03.Text bind modify io.WriteString].
  destruct (http.WriteHeader code _) as [[[]|msg] w']; [reflexivity|].
  discriminate.
Qed.

(** The helper stopped by the panic of [WriteHeader]. *)
Lemma Text_panics (code : Z) (body : string) (w : http.ResponseWriter) :
  http.validCode code = false ->
  http.wroteHeader w = false ->
  ResponseWrapper03.Text code body w =
  (Panic (http.invalidCode code),
   http.record (http.CallWriteHeader code)
     (http.HeaderSet "Content-Type" "text/plain" w)).
Proof.
  intros Hv Hw.
  cbv beta iota delta [ResponseWrapper03.Text bind modify io.WriteString].
  by rewrite (WriteHeader_panics code
                (http.HeaderSet "Content-Type" "text/plain" w) Hv Hw).
Qed.

Lemma Text_calls (code : Z) (body : string) (w : http.ResponseWriter) :
  http.validCode code = true \/ http.wroteHeader w = true ->
  http.calls (snd (ResponseWrapper03.Text code body w)) =
  (http.calls w ++ [http.CallHeaderSet "Content-Type" "text/plain";
                    http.CallWriteHeader code;
                    http.CallWrite (body +:+ LF)])%list.
Proof.
  intros Hok. rewrite (Text_run code body w Hok). cbn [snd].
  rewrite Write_calls, WriteHeader_calls, HeaderSet_calls.
  by rewrite <- !app_assoc.
Qed.

(** The three calls on a writer whose status line has not gone out, for a
    code that is the status of a response with a body. *)
Lemma set_status_write (k v : string) (code : Z) (data : string)
  (w : http.ResponseWriter) :
  http.wroteHeader w = false ->
  http.validCode code = true ->
  http.bodyAllowedForStatus code = true ->
  http.response
    (http.Write data (snd (http.WriteHeader code (http.HeaderSet k v w)))) =
  {| http.StatusCode := code;
     http.RespHeader := <[k := [v]]> (http.header w);
     http.Body := http.body w +:+ data |}.
Proof.
  intros Hw Hv Hb.
  rewrite (WriteHeader_final code _ Hv (body_code_not_informational code Hb)).
  destruct w as [h wh s sh b i c]. cbn [http.wroteHeader] in Hw. subst wh.
  cbv beta iota zeta delta
    [http.Write http.send_status http.record http.HeaderSet snd
     http.wroteHeader http.status http.header http.body http.calls
     http.sentHeader http.interim].
  rewrite Hb. reflexivity.
Qed.

Lemma Text_wire (code : Z) (body : string) (w : http.ResponseWriter) :
  http.wroteHeader w = false ->
  http.validCode code = true ->
  http.bodyAllowedForStatus code = true ->
  http.response (snd (ResponseWrapper03.Text code body w)) =
  {| http.StatusCode := code;
     http.RespHeader := <["Content-Type" := ["text/plain"]]> (http.header w);
     http.Body := http.body w +:+ body +:+ LF |}.
Proof.
  intros Hw Hv Hb. rewrite (Text_run code body w (or_introl Hv)). cbn [snd].
  by apply set_status_write.
Qed.

Lemma Text_fresh (code : Z) (body : string) :
  http.validCode code = true ->
  http.bodyAllowedForStatus code = true ->
  ResponseWrapper03.Text code body http.NewWriter =
  (Ok tt, snd (ResponseWrapper03.Text code body http.NewWriter)) /\
  http.response (snd (ResponseWrapper03.Text code body http.NewWriter)) =
  plain code body.
Proof.
  intros Hv Hb. split.
  - by rewrite (Text_run code body http.NewWriter (or_introl Hv)).
  - by rewrite Text_wire.
Qed.

(** ** Dispatch in the router with [Request] and [Response] *)

Section RegexRouterFacts.
Context {L : RegexpLib}.

Local Abbreviation path r := (url.Path (http.URL r)).
Local Abbreviation submatch rt r :=
  (FindStringSubmatch (RegexRouter.Pattern rt) (path r)).

Lemma nonempty_length {A} (l : list A) : l <> [] <-> (0 <? length l)%nat = true.
Proof. destruct l; cbn; split; (done || congruence). Qed.

Lemma empty_length {A} (l : list A) : l = [] <-> (0 <? length l)%nat = false.
Proof. destruct l; cbn; split; (done || congruence). Qed.

(** The request a matched handler receives. *)
Lemma matched_request (r : http.Request) (m : list string) :
  m <> [] ->
  (if (1 <? length m)%nat
   then {| RegexRouter.Request_ := r; RegexRouter.Params := drop 1 m |}
   else {| RegexRouter.Request_ := r; RegexRouter.Params := [] |}) =
  {| RegexRouter.Request_ := r; RegexRouter.Params := drop 1 m |}.
Proof. destruct m as [|x [|y m]]; [done|reflexivity|reflexivity]. Qed.

Lemma range_routes_miss (routes : list RegexRouter.Route) (i : nat)
  (r : http.Request) (req : RegexRouter.Request) (st : RegexRouter.Serving) :
  (forall rt, rt ∈ routes -> submatch rt r = []) ->
  RegexRouter.range_routes routes i r req st = (Ok false, st).
Proof.
  revert i. induction routes as [|rt rest IH]; intros i Hmiss; [reflexivity|].
  cbn [RegexRouter.range_routes].
  assert (Hrt : submatch rt r = []) by (apply Hmiss; left).
  apply empty_length in Hrt. rewrite Hrt.
  apply IH. intros rt' Hin. apply Hmiss. by right.
Qed.

Lemma range_routes_hit (routes : list RegexRouter.Route) (base i : nat)
  (r : http.Request) (st : RegexRouter.Serving) (rt : RegexRouter.Route) :
  routes !! i = Some rt ->
  submatch rt r <> [] ->
  (forall j rt', (j < i)%nat -> routes !! j = Some rt' -> submatch rt' r = []) ->
  RegexRouter.range_routes routes base r
    {| RegexRouter.Request_ := r; RegexRouter.Params := [] |} st =
  bind (RegexRouter.call (Routed (base + i)) (RegexRouter.Handler_ rt)
          {| RegexRouter.Request_ := r;
             RegexRouter.Params := drop 1 (submatch rt r) |})
       (fun _ => ret true) st.
Proof.
  revert base i. induction routes as [|rt0 rest IH]; intros base i Hi Hhit Hbefore.
  - done.
  - destruct i as [|i]; cbn [RegexRouter.range_routes].
    + cbn in Hi. injection Hi as ->.
      pose proof Hhit as Hlen. apply nonempty_length in Hlen. rewrite Hlen.
      cbn [RegexRouter.Request_].
      rewrite (matched_request r _ Hhit). by rewrite Nat.add_0_r.
    + cbn in Hi.
      assert (H0 : submatch rt0 r = []) by (apply (Hbefore 0%nat); [lia|done]).
      apply empty_length in H0. rewrite H0.
      rewrite (IH (S base) i Hi Hhit).
      * by replace (S base + i)%nat with (base + S i)%nat by lia.
      * intros j rt' Hj Hl. apply (Hbefore (S j)); [lia|done].
Qed.

(** Either no route matches the path or there is a first one that does. *)
Lemma first_match_cases (routes : list RegexRouter.Route) (r : http.Request) :
  (forall rt, rt ∈ routes -> submatch rt r = []) \/
  (exists i rt, routes !! i = Some rt /\ submatch rt r <> [] /\
     forall j rt', (j < i)%nat -> routes !! j = Some rt' -> submatch rt' r = []).
Proof.
  induction routes as [|rt0 rest IH].
  - left. intros rt Hin. by apply elem_of_nil in Hin.
  - destruct (submatch rt0 r) as [|x m] eqn:E0.
    + destruct IH as [Hnone | (i & rt & Hi & Hhit & Hbefore)].
      * left. intros rt Hin. apply elem_of_cons in Hin as [-> | Hin]; auto.
      * right. exists (S i), rt. split; [done|]. split; [done|].
        intros [|j] rt' Hj Hl; cbn in Hl.
        -- by injection Hl as <-.
        -- apply (Hbefore j); [lia|done].
    + right. exists 0%nat, rt0. split; [done|]. split; [by rewrite E0|].
      intros j rt' Hj. lia.
Qed.

Lemma ServeHTTP_hit (r : http.Request) (st : RegexRouter.Serving) (i : nat)
  (rt : RegexRouter.Route) :
  RegexRouter.Routes (RegexRouter.a st) !! i = Some rt ->
  submatch rt r <> [] ->
  (forall j rt', (j < i)%nat ->
     RegexRouter.Routes (RegexRouter.a st) !! j = Some rt' -> submatch rt' r = []) ->
  RegexRouter.ServeHTTP r st =
  RegexRouter.call (Routed i) (RegexRouter.Handler_ rt)
    {| RegexRouter.Request_ := r;
       RegexRouter.Params := drop 1 (submatch rt r) |} st.
Proof.
  intros Hi Hhit Hbefore. unfold RegexRouter.ServeHTTP, bind at 1.
  rewrite (range_routes_hit _ 0 i r st rt Hi Hhit Hbefore).
  unfold bind, ret. cbn [Nat.add].
  destruct (RegexRouter.call _ _ _ st) as [[[]|msg] st']; reflexivity.
Qed.

Lemma ServeHTTP_miss (r : http.Request) (st : RegexRouter.Serving) :
  (forall rt, rt ∈ RegexRouter.Routes (RegexRouter.a st) -> submatch rt r = []) ->
  RegexRouter.ServeHTTP r st =
  RegexRouter.call Default (RegexRouter.DefaultRoute (RegexRouter.a st))
    {| RegexRouter.Request_ := r; RegexRouter.Params := [] |} st.
Proof.
  intros Hmiss. unfold RegexRouter.ServeHTTP, bind.
  by rewrite (range_routes_miss _ 0 r _ st Hmiss).
Qed.

Lemma call_effect (t : Target) (h : RegexRouter.Handler)
  (req : RegexRouter.Request) (st : RegexRouter.Serving) :
  fst (RegexRouter.call t h req st) = fst (h req (RegexRouter.w st)) /\
  RegexRouter.a (snd (RegexRouter.call t h req st)) = RegexRouter.a st /\
  RegexRouter.w (snd (RegexRouter.call t h req st)) = snd (h req (RegexRouter.w st)) /\
  RegexRouter.ran (snd (RegexRouter.call t h req st)) =
    (RegexRouter.ran st ++ [{| target := t; params := RegexRouter.Params req |}])%list.
Proof.
  unfold RegexRouter.call. by destruct (h req (RegexRouter.w st)).
Qed.

(** Every dispatch is one call of one handler. *)
Lemma ServeHTTP_is_call (r : http.Request) (st : RegexRouter.Serving) :
  exists t h req, RegexRouter.ServeHTTP r st = RegexRouter.call t h req st.
Proof.
  destruct (first_match_cases (RegexRouter.Routes (RegexRouter.a st)) r)
    as [Hnone | (i & rt & Hi & Hhit & Hbefore)].
  - eexists _, _, _. by apply ServeHTTP_miss.
  - eexists _, _, _. by apply ServeHTTP_hit.
Qed.

Lemma ServeHTTP_frame (r : http.Request) (st : RegexRouter.Serving) :
  RegexRouter.a (snd (RegexRouter.ServeHTTP r st)) = RegexRouter.a st.
Proof.
  destruct (ServeHTTP_is_call r st) as (t & h & req & ->).
  apply call_effect.
Qed.

End RegexRouterFacts.

(** ** Dispatch in the router with a [Context] *)

Section ContextRouterFacts.
Context {L : RegexpLib}.

Local Abbreviation path r := (url.Path (http.URL r)).
Local Abbreviation submatch rt r :=
  (FindStringSubmatch (ContextRouter.Pattern rt) (path r)).

(** The context a matched handler receives. *)
Lemma ctx_matched_request (r : http.Request) (m : list string) :
  m <> [] ->
  (if (1 <? length m)%nat
   then {| ContextRouter.Request_ := r; ContextRouter.Params := drop 1 m |}
   else {| ContextRouter.Request_ := r; ContextRouter.Params := [] |}) =
  {| ContextRouter.Request_ := r; ContextRouter.Params := drop 1 m |}.
Proof. destruct m as [|x [|y m]]; [done|reflexivity|reflexivity]. Qed.

Lemma ctx_range_routes_miss (routes : list ContextRouter.Route) (i : nat)
  (r : http.Request) (ps : list string) (st : ContextRouter.Serving) :
  (forall rt, rt ∈ routes -> submatch rt r = []) ->
  ContextRouter.range_routes routes i
    {| ContextRouter.Request_ := r; ContextRouter.Params := ps |} st =
  (Ok false, st).
Proof.
  revert i. induction routes as [|rt rest IH]; intros i Hmiss; [reflexivity|].
  cbn [ContextRouter.range_routes ContextRouter.Request_].
  assert (Hrt : submatch rt r = []) by (apply Hmiss; left).
  apply empty_length in Hrt. rewrite Hrt.
  apply IH. intros rt' Hin. apply Hmiss. by right.
Qed.

Lemma ctx_range_routes_hit (routes : list ContextRouter.Route) (base i : nat)
  (r : http.Request) (st : ContextRouter.Serving) (rt : ContextRouter.Route) :
  routes !! i = Some rt ->
  submatch rt r <> [] ->
  (forall j rt', (j < i)%nat -> routes !! j = Some rt' -> submatch rt' r = []) ->
  ContextRouter.range_routes routes base
    {| ContextRouter.Request_ := r; ContextRouter.Params := [] |} st =
  bind (ContextRouter.call (Routed (base + i)) (ContextRouter.Handler_ rt)
          {| ContextRouter.Request_ := r;
             ContextRouter.Params := drop 1 (submatch rt r) |})
       (fun _ => ret true) st.
Proof.
  revert base i. induction routes as [|rt0 rest IH]; intros base i Hi Hhit Hbefore.
  - done.
  - destruct i as [|i]; cbn [ContextRouter.range_routes ContextRouter.Request_].
    + cbn in Hi. injection Hi as ->.
      pose proof Hhit as Hlen. apply nonempty_length in Hlen. rewrite Hlen.
      cbn [ContextRouter.Request_].
      rewrite (ctx_matched_request r _ Hhit). by rewrite Nat.add_0_r.
    + cbn in Hi.
      assert (H0 : submatch rt0 r = []) by (apply (Hbefore 0%nat); [lia|done]).
      apply empty_length in H0. rewrite H0.
      rewrite (IH (S base) i Hi Hhit).
      * by replace (S base + i)%nat with (base + S i)%nat by lia.
      * intros j rt' Hj Hl. apply (Hbefore (S j)); [lia|done].
Qed.

(** Either no route matches the path or there is a first one that does. *)
Lemma ctx_first_match_cases (routes : list ContextRouter.Route) (r : http.Request) :
  (forall rt, rt ∈ routes -> submatch rt r = []) \/
  (exists i rt, routes !! i = Some rt /\ submatch rt r <> [] /\
     forall j rt', (j < i)%nat -> routes !! j = Some rt' -> submatch rt' r = []).
Proof.
  induction routes as [|rt0 rest IH].
  - left. intros rt Hin. by apply elem_of_nil in Hin.
  - destruct (submatch rt0 r) as [|x m] eqn:E0.
    + destruct IH as [Hnone | (i & rt & Hi & Hhit & Hbefore)].
      * left. intros rt Hin. apply elem_of_cons in Hin as [-> | Hin]; auto.
      * right. exists (S i), rt. split; [done|]. split; [done|].
        intros [|j] rt' Hj Hl; cbn in Hl.
        -- by injection Hl as <-.
        -- apply (Hbefore j); [lia|done].
    + right. exists 0%nat, rt0. split; [done|]. split; [by rewrite E0|].
      intros j rt' Hj. lia.
Qed.

Lemma ctx_ServeHTTP_hit (r : http.Request) (st : ContextRouter.Serving) (i : nat)
  (rt : ContextRouter.Route) :
  ContextRouter.Routes (ContextRouter.a st) !! i = Some rt ->
  submatch rt r <> [] ->
  (forall j rt', (j < i)%nat ->
     ContextRouter.Routes (ContextRouter.a st) !! j = Some rt' -> submatch rt' r = []) ->
  ContextRouter.ServeHTTP r st =
  ContextRouter.call (Routed i) (ContextRouter.Handler_ rt)
    {| ContextRouter.Request_ := r;
       ContextRouter.Params := drop 1 (submatch rt r) |} st.
Proof.
  intros Hi Hhit Hbefore. unfold ContextRouter.ServeHTTP, bind at 1.
  rewrite (ctx_range_routes_hit _ 0 i r st rt Hi Hhit Hbefore).
  unfold bind, ret. cbn [Nat.add].
  destruct (ContextRouter.call _ _ _ st) as [[[]|msg] st']; reflexivity.
Qed.

Lemma ctx_ServeHTTP_miss (r : http.Request) (st : ContextRouter.Serving) :
  (forall rt, rt ∈ ContextRouter.Routes (ContextRouter.a st) -> submatch rt r = []) ->
  ContextRouter.ServeHTTP r st =
  ContextRouter.call Default (ContextRouter.DefaultRoute (ContextRouter.a st))
    {| ContextRouter.Request_ := r; ContextRouter.Params := [] |} st.
Proof.
  intros Hmiss. unfold ContextRouter.ServeHTTP, bind.
  by rewrite (ctx_range_routes_miss _ 0 r [] st Hmiss).
Qed.

Lemma ctx_call_effect (t : Target) (h : ContextRouter.Handler)
  (req : ContextRouter.Context) (st : ContextRouter.Serving) :
  fst (ContextRouter.call t h req st) = fst (h req (ContextRouter.w st)) /\
  ContextRouter.a (snd (ContextRouter.call t h req st)) = ContextRouter.a st /\
  ContextRouter.w (snd (ContextRouter.call t h req st)) = snd (h req (ContextRouter.w st)) /\
  ContextRouter.ran (snd (ContextRouter.call t h req st)) =
    (ContextRouter.ran st ++ [{| target := t; params := ContextRouter.Params req |}])%list.
Proof.
  unfold ContextRouter.call. by destruct (h req (ContextRouter.w st)).
Qed.

(** Every dispatch is one call of one handler. *)
Lemma ctx_ServeHTTP_is_call (r : http.Request) (st : ContextRouter.Serving) :
  exists t h req, ContextRouter.ServeHTTP r st = ContextRouter.call t h req st.
Proof.
  destruct (ctx_first_match_cases (ContextRouter.Routes (ContextRouter.a st)) r)
    as [Hnone | (i & rt & Hi & Hhit & Hbefore)].
  - eexists _, _, _. by apply ctx_ServeHTTP_miss.
  - eexists _, _, _. by apply ctx_ServeHTTP_hit.
Qed.

Lemma ctx_ServeHTTP_frame (r : http.Request) (st : ContextRouter.Serving) :
  ContextRouter.a (snd (ContextRouter.ServeHTTP r st)) = ContextRouter.a st.
Proof.
  destruct (ctx_ServeHTTP_is_call r st) as (t & h & req & ->).
  apply ctx_call_effect.
Qed.

End ContextRouterFacts.
(** ** The demonstrated route table *)

Lemma MustCompile_hello : regexp.MustCompile "^/hello$" = Ok hello_re.
Proof. vm_compute. reflexivity. Qed.

Lemma MustCompile_hello_name :
  regexp.MustCompile "/hello/([\w\._-]+)$" = Ok hello_name_re.
Proof. vm_compute. reflexivity. Qed.

Lemma demo_setup : RegexRouter.setup RegexRouter.NewApp = (Ok tt, demo_app).
Proof.
  unfold RegexRouter.setup, bind, RegexRouter.Handle.
  cbn [MustCompile go_regexp].
  rewrite MustCompile_hello. cbn [RegexRouter.Routes RegexRouter.NewApp app].
  rewrite MustCompile_hello_name. reflexivity.
Qed.

Lemma demo_ctx_setup :
  ContextRouter.setup ContextRouter.NewApp = (Ok tt, demo_ctx_app).
Proof.
  unfold ContextRouter.setup, bind, ContextRouter.Handle.
  cbn [MustCompile go_regexp].
  rewrite MustCompile_hello. cbn [ContextRouter.Routes ContextRouter.NewApp app].
  rewrite MustCompile_hello_name. reflexivity.
Qed.

(** Evaluate the matcher on the patterns and the path at hand. *)
Ltac eval_submatch :=
  cbn [RegexRouter.Pattern ContextRouter.Pattern FindStringSubmatch NumSubexp
       go_regexp url.Path http.URL get];
  vm_compute.

(** The members of the demonstrated table, one by one. *)
Ltac each_demo_route H :=
  apply list_elem_of_In in H; cbn [In demo_app demo_ctx_app RegexRouter.Routes
    ContextRouter.Routes RegexRouter.a ContextRouter.a fresh ctx_fresh] in H;
  destruct H as [<- | [<- | []]].

Example demo_hello :
  RegexRouter.main [get "/hello"; get "/hello/Patrick"; get "/missing"] =
  Ok [Served (plain 200 "Hello world"); Served (plain 200 "Hello Patrick");
      Served (plain 404 "Not found")].
Proof. vm_compute. reflexivity. Qed.

Example demo_ctx_hello :
  ContextRouter.main [get "/hello"; get "/hello/Patrick"; get "/missing"] =
  Ok [Served (plain 200 "Hello world"); Served (plain 200 "Hello Patrick");
      Served (plain 404 "Not found")].
Proof. vm_compute. reflexivity. Qed.

(** ** First match wins *)

(** Close the goals that read off what one call did. *)
Ltac by_call_effect :=
  match goal with
  | |- context [RegexRouter.call ?t ?h ?req ?st] =>
      destruct (call_effect t h req st) as (?Hres & ?Happ & ?Hw & ?Hran);
      repeat split; eassumption
  | |- context [ContextRouter.call ?t ?h ?req ?st] =>
      destruct (ctx_call_effect t h req st) as (?Hres & ?Happ & ?Hw & ?Hran);
      repeat split; eassumption
  end.

(** C1 — Dispatch has first-match-wins semantics, in both routers.  For a
    request whose path matches route [i] and no route before it, the
    dispatch is one call of route [i]'s handler: its outcome and its writes
    are the dispatch's, and the only call recorded is that of route [i].
    When no route matches, the only call is that of the default handler.
    In every case exactly one call is recorded, and it is the call of the
    first matching route or, when there is none, of the default handler. *)
Theorem dispatch_first_match_wins {L : RegexpLib} :
  (forall (st : RegexRouter.Serving) (r : http.Request),
     (forall (i : nat) (rt : RegexRouter.Route),
        RegexRouter.Routes (RegexRouter.a st) !! i = Some rt ->
        FindStringSubmatch (RegexRouter.Pattern rt) (url.Path (http.URL r)) <> [] ->
        (forall j rt', (j < i)%nat ->
           RegexRouter.Routes (RegexRouter.a st) !! j = Some rt' ->
           FindStringSubmatch (RegexRouter.Pattern rt') (url.Path (http.URL r)) = []) ->
        exists req,
          RegexRouter.Request_ req = r /\
          fst (RegexRouter.ServeHTTP r st) =
            fst (RegexRouter.Handler_ rt req (RegexRouter.w st)) /\
          RegexRouter.w (snd (RegexRouter.ServeHTTP r st)) =
            snd (RegexRouter.Handler_ rt req (RegexRouter.w st)) /\
          RegexRouter.ran (snd (RegexRouter.ServeHTTP r st)) =
            (RegexRouter.ran st ++
               [{| target := Routed i; params := RegexRouter.Params req |}])%list) /\
     ((forall rt, rt ∈ RegexRouter.Routes (RegexRouter.a st) ->
         FindStringSubmatch (RegexRouter.Pattern rt) (url.Path (http.URL r)) = []) ->
        exists req,
          RegexRouter.Request_ req = r /\
          fst (RegexRouter.ServeHTTP r st) =
            fst (RegexRouter.DefaultRoute (RegexRouter.a st) req (RegexRouter.w st)) /\
          RegexRouter.w (snd (RegexRouter.ServeHTTP r st)) =
            snd (RegexRouter.DefaultRoute (RegexRouter.a st) req (RegexRouter.w st)) /\
          RegexRouter.ran (snd (RegexRouter.ServeHTTP r st)) =
            (RegexRouter.ran st ++
               [{| target := Default; params := RegexRouter.Params req |}])%list) /\
     (exists t ps,
        RegexRouter.ran (snd (RegexRouter.ServeHTTP r st)) =
          (RegexRouter.ran st ++ [{| target := t; params := ps |}])%list /\
        match t with
        | Routed i =>
            exists rt,
              RegexRouter.Routes (RegexRouter.a st) !! i = Some rt /\
              FindStringSubmatch (RegexRouter.Pattern rt) (url.Path (http.URL r)) <> [] /\
              forall j rt', (j < i)%nat ->
                RegexRouter.Routes (RegexRouter.a st) !! j = Some rt' ->
                FindStringSubmatch (RegexRouter.Pattern rt') (url.Path (http.URL r)) = []
        | Default =>
            forall rt, rt ∈ RegexRouter.Routes (RegexRouter.a st) ->
              FindStringSubmatch (RegexRouter.Pattern rt) (url.Path (http.URL r)) = []
        end)) /\
  (forall (st : ContextRouter.Serving) (r : http.Request),
     (forall (i : nat) (rt : ContextRouter.Route),
        ContextRouter.Routes (ContextRouter.a st) !! i = Some rt ->
        FindStringSubmatch (ContextRouter.Pattern rt) (url.Path (http.URL r)) <> [] ->
        (forall j rt', (j < i)%nat ->
           ContextRouter.Routes (ContextRouter.a st) !! j = Some rt' ->
           FindStringSubmatch (ContextRouter.Pattern rt') (url.Path (http.URL r)) = []) ->
        exists ctx,
          ContextRouter.Request_ ctx = r /\
          fst (ContextRouter.ServeHTTP r st) =
            fst (ContextRouter.Handler_ rt ctx (ContextRouter.w st)) /\
          ContextRouter.w (snd (ContextRouter.ServeHTTP r st)) =
            snd (ContextRouter.Handler_ rt ctx (ContextRouter.w st)) /\
          ContextRouter.ran (snd (ContextRouter.ServeHTTP r st)) =
            (ContextRouter.ran st ++
               [{| target := Routed i; params := ContextRouter.Params ctx |}])%list) /\
     ((forall rt, rt ∈ ContextRouter.Routes (ContextRouter.a st) ->
         FindStringSubmatch (ContextRouter.Pattern rt) (url.Path (http.URL r)) = []) ->
        exists ctx,
          ContextRouter.Request_ ctx = r /\
          fst (ContextRouter.ServeHTTP r st) =
            fst (ContextRouter.DefaultRoute (ContextRouter.a st) ctx (ContextRouter.w st)) /\
          ContextRouter.w (snd (ContextRouter.ServeHTTP r st)) =
            snd (ContextRouter.DefaultRoute (ContextRouter.a st) ctx (ContextRouter.w st)) /\
          ContextRouter.ran (snd (ContextRouter.ServeHTTP r st)) =
            (ContextRouter.ran st ++
               [{| target := Default; params := ContextRouter.Params ctx |}])%list) /\
     (exists t ps,
        ContextRouter.ran (snd (ContextRouter.ServeHTTP r st)) =
          (ContextRouter.ran st ++ [{| target := t; params := ps |}])%list /\
        match t with
        | Routed i =>
            exists rt,
              ContextRouter.Routes (ContextRouter.a st) !! i = Some rt /\
              FindStringSubmatch (ContextRouter.Pattern rt) (url.Path (http.URL r)) <> [] /\
              forall j rt', (j < i)%nat ->
                ContextRouter.Routes (ContextRouter.a st) !! j = Some rt' ->
                FindStringSubmatch (ContextRouter.Pattern rt') (url.Path (http.URL r)) = []
        | Default =>
            forall rt, rt ∈ ContextRouter.Routes (ContextRouter.a st) ->
              FindStringSubmatch (ContextRouter.Pattern rt) (url.Path (http.URL r)) = []
        end)).
Proof.
  split; intros st r.
  - split; [|split].
    + intros i rt Hi Hhit Hbefore.
      exists {| RegexRouter.Request_ := r;
                RegexRouter.Params :=
                  drop 1 (FindStringSubmatch (RegexRouter.Pattern rt)
                            (url.Path (http.URL r))) |}.
      rewrite (ServeHTTP_hit r st i rt Hi Hhit Hbefore).
      split; [reflexivity|]. by_call_effect.
    + intros Hmiss.
      exists {| RegexRouter.Request_ := r; RegexRouter.Params := [] |}.
      rewrite (ServeHTTP_miss r st Hmiss).
      split; [reflexivity|]. by_call_effect.
    + destruct (first_match_cases (RegexRouter.Routes (RegexRouter.a st)) r)
        as [Hnone | (i & rt & Hi & Hhit & Hbefore)].
      * exists Default, []. rewrite (ServeHTTP_miss r st Hnone).
        split; [by_call_effect | exact Hnone].
      * exists (Routed i). eexists.
        rewrite (ServeHTTP_hit r st i rt Hi Hhit Hbefore).
        split; [by_call_effect | by exists rt].
  - split; [|split].
    + intros i rt Hi Hhit Hbefore.
      exists {| ContextRouter.Request_ := r;
                ContextRouter.Params :=
                  drop 1 (FindStringSubmatch (ContextRouter.Pattern rt)
                            (url.Path (http.URL r))) |}.
      rewrite (ctx_ServeHTTP_hit r st i rt Hi Hhit Hbefore).
      split; [reflexivity|]. by_call_effect.
    + intros Hmiss.
      exists {| ContextRouter.Request_ := r; ContextRouter.Params := [] |}.
      rewrite (ctx_ServeHTTP_miss r st Hmiss).
      split; [reflexivity|]. by_call_effect.
    + destruct (ctx_first_match_cases (ContextRouter.Routes (ContextRouter.a st)) r)
        as [Hnone | (i & rt & Hi & Hhit & Hbefore)].
      * exists Default, []. rewrite (ctx_ServeHTTP_miss r st Hnone).
        split; [by_call_effect | exact Hnone].
      * exists (Routed i). eexists.
        rewrite (ctx_ServeHTTP_hit r st i rt Hi Hhit Hbefore).
        split; [by_call_effect | by exists rt].
Qed.

Lemma dispatch_first_match_wins_witness :
  exists ps,
    RegexRouter.ran
      (snd (RegexRouter.ServeHTTP (get "/hello/Patrick") (fresh demo_app))) =
    [{| target := Routed 1; params := ps |}].
Proof.
  destruct (proj1 (@dispatch_first_match_wins go_regexp)
              (fresh demo_app) (get "/hello/Patrick")) as (Hhit & _ & _).
  edestruct (Hhit 1%nat) as (req & _ & _ & _ & Hran).
  - reflexivity.
  - eval_submatch. discriminate.
  - intros [|j] rt' Hj Hl; [|lia].
    injection Hl as <-. eval_submatch. reflexivity.
  - exists (RegexRouter.Params req). exact Hran.
Defined.

(** ** No match: the default handler *)

(** C2 — A request whose path matches no registered route is dispatched to
    the default handler, with an empty capture sequence, in both routers;
    and the default handler that [NewApp] installs answers on a fresh
    writer with status 404, content type [text/plain] and body
    ["Not found\n"].  [Handle] leaves the default handler in place. *)
Theorem unmatched_request_not_found {L : RegexpLib} :
  (forall (st : RegexRouter.Serving) (r : http.Request),
     (forall rt, rt ∈ RegexRouter.Routes (RegexRouter.a st) ->
        FindStringSubmatch (RegexRouter.Pattern rt) (url.Path (http.URL r)) = []) ->
     RegexRouter.ServeHTTP r st =
       RegexRouter.call Default (RegexRouter.DefaultRoute (RegexRouter.a st))
         {| RegexRouter.Request_ := r; RegexRouter.Params := [] |} st /\
     RegexRouter.ran (snd (RegexRouter.ServeHTTP r st)) =
       (RegexRouter.ran st ++ [{| target := Default; params := [] |}])%list /\
     (RegexRouter.DefaultRoute (RegexRouter.a st) =
        RegexRouter.DefaultRoute RegexRouter.NewApp ->
      RegexRouter.w st = http.NewWriter ->
      fst (RegexRouter.ServeHTTP r st) = Ok tt /\
      http.response (RegexRouter.w (snd (RegexRouter.ServeHTTP r st))) =
        plain 404 "Not found")) /\
  (forall (pattern : string) (h : RegexRouter.Handler) (app : RegexRouter.App),
     RegexRouter.DefaultRoute (snd (RegexRouter.Handle pattern h app)) =
     RegexRouter.DefaultRoute app) /\
  (forall (st : ContextRouter.Serving) (r : http.Request),
     (forall rt, rt ∈ ContextRouter.Routes (ContextRouter.a st) ->
        FindStringSubmatch (ContextRouter.Pattern rt) (url.Path (http.URL r)) = []) ->
     ContextRouter.ServeHTTP r st =
       ContextRouter.call Default (ContextRouter.DefaultRoute (ContextRouter.a st))
         {| ContextRouter.Request_ := r; ContextRouter.Params := [] |} st /\
     ContextRouter.ran (snd (ContextRouter.ServeHTTP r st)) =
       (ContextRouter.ran st ++ [{| target := Default; params := [] |}])%list /\
     (ContextRouter.DefaultRoute (ContextRouter.a st) =
        ContextRouter.DefaultRoute ContextRouter.NewApp ->
      ContextRouter.w st = http.NewWriter ->
      fst (ContextRouter.ServeHTTP r st) = Ok tt /\
      http.response (ContextRouter.w (snd (ContextRouter.ServeHTTP r st))) =
        plain 404 "Not found")) /\
  (forall (pattern : string) (h : ContextRouter.Handler) (app : ContextRouter.App),
     ContextRouter.DefaultRoute (snd (ContextRouter.Handle pattern h app)) =
     ContextRouter.DefaultRoute app).
Proof.
  split; [|split; [|split]].
  - intros st r Hmiss. rewrite (ServeHTTP_miss r st Hmiss).
    split; [reflexivity|]. split; [by_call_effect|].
    intros Hdef Hw. rewrite Hdef.
    unfold RegexRouter.call. rewrite Hw. split; reflexivity.
  - intros pattern h app. unfold RegexRouter.Handle.
    by destruct (MustCompile pattern).
  - intros st r Hmiss. rewrite (ctx_ServeHTTP_miss r st Hmiss).
    split; [reflexivity|]. split; [by_call_effect|].
    intros Hdef Hw. rewrite Hdef.
    unfold ContextRouter.call. rewrite Hw. split; reflexivity.
  - intros pattern h app. unfold ContextRouter.Handle.
    by destruct (MustCompile pattern).
Qed.

Lemma unmatched_request_not_found_witness :
  fst (RegexRouter.ServeHTTP (get "/missing") (fresh demo_app)) = Ok tt /\
  http.response
    (RegexRouter.w (snd (RegexRouter.ServeHTTP (get "/missing") (fresh demo_app)))) =
  plain 404 "Not found".
Proof.
  destruct (proj1 (@unmatched_request_not_found go_regexp)
              (fresh demo_app) (get "/missing")) as (_ & _ & Hresp).
  - intros rt Hin. each_demo_route Hin; eval_submatch; reflexivity.
  - apply Hresp; reflexivity.
Defined.

(** ** Captures *)

(** C3 — For a matched route, the request handed to the handler carries as
    its capture sequence the submatches of the pattern's groups, in the
    order of the groups: the slice [FindStringSubmatch] returns without its
    first element.  There are as many captures as the pattern has groups;
    capture [k] is the text of group [k + 1]; a pattern with one group
    yields exactly one capture, the text of that group, and a pattern with
    no group yields none. *)
Theorem captures_are_group_submatches {L : RegexpLib}
  (st : RegexRouter.Serving) (r : http.Request) (i : nat)
  (rt : RegexRouter.Route) :
  RegexRouter.Routes (RegexRouter.a st) !! i = Some rt ->
  FindStringSubmatch (RegexRouter.Pattern rt) (url.Path (http.URL r)) <> [] ->
  (forall j rt', (j < i)%nat ->
     RegexRouter.Routes (RegexRouter.a st) !! j = Some rt' ->
     FindStringSubmatch (RegexRouter.Pattern rt') (url.Path (http.URL r)) = []) ->
  let m := FindStringSubmatch (RegexRouter.Pattern rt) (url.Path (http.URL r)) in
  let req := {| RegexRouter.Request_ := r; RegexRouter.Params := drop 1 m |} in
  RegexRouter.ServeHTTP r st =
    RegexRouter.call (Routed i) (RegexRouter.Handler_ rt) req st /\
  length (RegexRouter.Params req) = NumSubexp (RegexRouter.Pattern rt) /\
  (forall k, (k < NumSubexp (RegexRouter.Pattern rt))%nat ->
     exists g, m !! S k = Some g /\ RegexRouter.Params req !! k = Some g) /\
  (NumSubexp (RegexRouter.Pattern rt) = 1%nat ->
     exists g, m !! 1%nat = Some g /\ RegexRouter.Params req = [g]) /\
  (NumSubexp (RegexRouter.Pattern rt) = 0%nat -> RegexRouter.Params req = []).
Proof.
  intros Hi Hhit Hbefore m req.
  pose proof (FindStringSubmatch_length _ _ Hhit) as Hlen. fold m in Hlen.
  split; [by apply ServeHTTP_hit|].
  subst req. cbn [RegexRouter.Params].
  destruct m as [|whole groups]; [done|].
  cbn [drop length] in *. injection Hlen as Hlen.
  split; [done|]. split; [|split].
  - intros k Hk. cbn.
    destruct (groups !! k) as [g|] eqn:Hg; [by exists g|].
    apply lookup_ge_None in Hg. lia.
  - intros H1. rewrite H1 in Hlen.
    destruct groups as [|g [|g' groups]]; try discriminate.
    by exists g.
  - intros H0. rewrite H0 in Hlen. by destruct groups.
Qed.

Lemma captures_are_group_submatches_witness :
  RegexRouter.ServeHTTP (get "/hello/Patrick") (fresh demo_app) =
  RegexRouter.call (Routed 1) RegexRouter.hello_name
    {| RegexRouter.Request_ := get "/hello/Patrick";
       RegexRouter.Params := ["Patrick"] |} (fresh demo_app).
Proof.
  refine (proj1 (@captures_are_group_submatches go_regexp (fresh demo_app)
                   (get "/hello/Patrick") 1%nat
                   {| RegexRouter.Pattern := hello_name_re;
                      RegexRouter.Handler_ := RegexRouter.hello_name |} _ _ _)).
  - reflexivity.
  - eval_submatch. discriminate.
  - intros [|j] rt' Hj Hl; [|lia].
    injection Hl as <-. eval_submatch. reflexivity.
Defined.

(** ** The router state *)

(** C8 — [ServeHTTP] leaves the [App] behind its receiver as it was: the
    route list and the default handler are the same after the dispatch, in
    both routers, whatever the request and whichever handler ran. *)
Theorem dispatch_keeps_router_state {L : RegexpLib} :
  (forall (st : RegexRouter.Serving) (r : http.Request),
     RegexRouter.a (snd (RegexRouter.ServeHTTP r st)) = RegexRouter.a st /\
     RegexRouter.Routes (RegexRouter.a (snd (RegexRouter.ServeHTTP r st))) =
       RegexRouter.Routes (RegexRouter.a st) /\
     RegexRouter.DefaultRoute (RegexRouter.a (snd (RegexRouter.ServeHTTP r st))) =
       RegexRouter.DefaultRoute (RegexRouter.a st)) /\
  (forall (st : ContextRouter.Serving) (r : http.Request),
     ContextRouter.a (snd (ContextRouter.ServeHTTP r st)) = ContextRouter.a st /\
     ContextRouter.Routes (ContextRouter.a (snd (ContextRouter.ServeHTTP r st))) =
       ContextRouter.Routes (ContextRouter.a st) /\
     ContextRouter.DefaultRoute (ContextRouter.a (snd (ContextRouter.ServeHTTP r st))) =
       ContextRouter.DefaultRoute (ContextRouter.a st)).
Proof.
  split; intros st r.
  - by rewrite ServeHTTP_frame.
  - by rewrite ctx_ServeHTTP_frame.
Qed.

(** ** The text-response helper *)

Lemma validCode_range (code : Z) :
  100 <= code <= 999 -> http.validCode code = true.
Proof.
  intros [Hlo Hhi]. unfold http.validCode.
  apply andb_true_iff. split; by apply Z.leb_le.
Qed.

(** C4, as stated, fails — "Given any status code and body string" the
    helper does not always reach its third call: the code is handed to
    [WriteHeader] as it is, and for a code that has not three digits
    [WriteHeader] panics.  With the code 0 on a fresh writer the helper has
    set the header and called [WriteHeader], no status line went out and
    the body was never written. *)
Lemma Text_any_code_counterexample :
  fst (RegexRouter.Text 0 "x" http.NewWriter) =
    Panic "invalid WriteHeader code 0" /\
  http.calls (snd (RegexRouter.Text 0 "x" http.NewWriter)) =
    [http.CallHeaderSet "Content-Type" "text/plain"; http.CallWriteHeader 0] /\
  http.wroteHeader (snd (RegexRouter.Text 0 "x" http.NewWriter)) = false /\
  http.body (snd (RegexRouter.Text 0 "x" http.NewWriter)) = "" /\
  ~ (forall (Text : Z -> string -> Eff http.ResponseWriter unit)
            (code : Z) (body : string) (w : http.ResponseWriter),
       In Text [ResponseWrapper03.Text; RegexRouter.Text; ContextRouter.Text] ->
       fst (Text code body w) = Ok tt /\
       http.calls (snd (Text code body w)) =
         (http.calls w ++ [http.CallHeaderSet "Content-Type" "text/plain";
                           http.CallWriteHeader code;
                           http.CallWrite (body +:+ LF)])%list).
Proof.
  split; [reflexivity|]. split; [reflexivity|]. split; [reflexivity|].
  split; [reflexivity|].
  intros Hall.
  destruct (Hall RegexRouter.Text 0 "x" http.NewWriter) as [Hok _].
  - right. left. reflexivity.
  - discriminate Hok.
Qed.

(** C4, amended — The text-response helper, in each of its three copies
    ([Response.Text] of the wrapper example, [Response.Text] of the router
    and [Context.Text]), for a status code of three digits (100 to 999)
    and any body makes exactly three calls on the writer, in this order:
    it sets the header [Content-Type] to [text/plain], writes the status
    line with the code, and writes the body followed by one line feed.  On
    a writer whose status line has not gone out, and for a code that
    allows a body (not 1xx, 204 or 304), the response has that status,
    that header and that body. *)
Theorem Text_header_status_body
  (Text : Z -> string -> Eff http.ResponseWriter unit)
  (code : Z) (body : string) (w : http.ResponseWriter) :
  In Text [ResponseWrapper03.Text; RegexRouter.Text; ContextRouter.Text] ->
  100 <= code <= 999 ->
  fst (Text code body w) = Ok tt /\
  http.calls (snd (Text code body w)) =
    (http.calls w ++ [http.CallHeaderSet "Content-Type" "text/plain";
                      http.CallWriteHeader code;
                      http.CallWrite (body +:+ LF)])%list /\
  (http.wroteHeader w = false ->
   http.bodyAllowedForStatus code = true ->
   http.response (snd (Text code body w)) =
     {| http.StatusCode := code;
        http.RespHeader := <["Content-Type" := ["text/plain"]]> (http.header w);
        http.Body := http.body w +:+ body +:+ LF |}).
Proof.
  intros HT Hrange. pose proof (validCode_range code Hrange) as Hv.
  assert (Text = ResponseWrapper03.Text) as ->.
  { destruct HT as [<- | [<- | [<- | []]]]; reflexivity. }
  split; [by rewrite (Text_run code body w (or_introl Hv))|].
  split; [by apply Text_calls; left|].
  intros Hw Hb. by apply Text_wire.
Qed.

Lemma Text_header_status_body_witness :
  http.calls (snd (ContextRouter.Text 200 "Hello world" http.NewWriter)) =
  [http.CallHeaderSet "Content-Type" "text/plain"; http.CallWriteHeader 200;
   http.CallWrite ("Hello world" +:+ LF)] /\
  http.response (snd (ContextRouter.Text 200 "Hello world" http.NewWriter)) =
  plain 200 "Hello world".
Proof.
  destruct (Text_header_status_body ContextRouter.Text 200 "Hello world"
              http.NewWriter) as (_ & Hcalls & Hwire).
  - right. right. left. reflexivity.
  - lia.
  - split; [exact Hcalls | exact (Hwire eq_refl eq_refl)].
Defined.

(** ** The custom handler *)

(** C10 — In the custom-handler example, [ServeHTTP] answers every request,
    whatever its path and method, with status 200, content type
    [text/plain] and body ["Hello world\n"]. *)
Theorem custom_handler_hello_world (a : CustomHandler04.App) (r : http.Request) :
  fst (CustomHandler04.ServeHTTP a r http.NewWriter) = Ok tt /\
  http.response (snd (CustomHandler04.ServeHTTP a r http.NewWriter)) =
    plain 200 "Hello world" /\
  forall w : http.ResponseWriter,
    http.wroteHeader w = false ->
    http.response (snd (CustomHandler04.ServeHTTP a r w)) =
      {| http.StatusCode := 200;
         http.RespHeader := <["Content-Type" := ["text/plain"]]> (http.header w);
         http.Body := http.body w +:+ "Hello world" +:+ LF |}.
Proof.
  split; [reflexivity|]. split.
  - change (CustomHandler04.ServeHTTP a r http.NewWriter)
      with (ResponseWrapper03.Text 200 "Hello world" http.NewWriter).
    by apply Text_fresh.
  - intros w Hw.
    change (CustomHandler04.ServeHTTP a r w)
      with (ResponseWrapper03.Text 200 "Hello world" w).
    by apply Text_wire.
Qed.

Lemma custom_handler_hello_world_witness :
  http.response
    (snd (CustomHandler04.ServeHTTP CustomHandler04.Build_App (get "/ok/pal")
            http.NewWriter)) =
  plain 200 "Hello world".
Proof.
  exact (proj1 (proj2 (custom_handler_hello_world CustomHandler04.Build_App
                         (get "/ok/pal")))).
Defined.

(** ** The prefix route of the multiplexer examples *)

(** C7 — In the two multiplexer examples, a request for the path [/hello/]
    (trailing slash, no name) reaches the handler registered for the
    prefix [/hello/], which strips the prefix and answers with status 200
    and body ["Hello \n"]: the name is empty and the request is not
    rejected. *)
Theorem bare_hello_prefix_greets_empty_name (r : http.Request) :
  url.Path (http.URL r) = "/hello/" ->
  (exists mx,
     ServeMux02.handler = Ok mx /\
     fst (mux.ServeHTTP mx r http.NewWriter) = Ok tt /\
     http.response (snd (mux.ServeHTTP mx r http.NewWriter)) = plain 200 "Hello ") /\
  (exists mx,
     ResponseWrapper03.handler = Ok mx /\
     fst (mux.ServeHTTP mx r http.NewWriter) = Ok tt /\
     http.response (snd (mux.ServeHTTP mx r http.NewWriter)) = plain 200 "Hello ").
Proof.
  destruct r as [meth [p] host]. cbn [url.Path http.URL]. intros ->.
  split; eexists; (split; [reflexivity|]); split; vm_compute; reflexivity.
Qed.

Lemma bare_hello_prefix_greets_empty_name_witness :
  exists mx,
    ServeMux02.handler = Ok mx /\
    http.response (snd (mux.ServeHTTP mx (get "/hello/") http.NewWriter)) =
    plain 200 "Hello ".
Proof.
  destruct (bare_hello_prefix_greets_empty_name (get "/hello/") eq_refl)
    as ((mx & Hmx & _ & Hresp) & _).
  exists mx. split; assumption.
Defined.

(** ** Serving a sequence of requests *)

Section RegexServing.
Context {L : RegexpLib}.

Lemma serve_one_app (app : RegexRouter.App) (r : http.Request) :
  snd (RegexRouter.serve_one app r) = app.
Proof.
  unfold RegexRouter.serve_one.
  pose proof (ServeHTTP_frame r
    {| RegexRouter.a := app; RegexRouter.w := http.NewWriter;
       RegexRouter.ran := [] |}) as Hframe.
  destruct (RegexRouter.ServeHTTP r _) as [[u|msg] st]; exact Hframe.
Qed.

Lemma ListenAndServe_map (app : RegexRouter.App) (incoming : list http.Request) :
  RegexRouter.ListenAndServe app incoming =
  map (fun r => fst (RegexRouter.serve_one app r)) incoming.
Proof.
  induction incoming as [|r rest IH]; [reflexivity|].
  cbn [RegexRouter.ListenAndServe map].
  pose proof (serve_one_app app r) as Happ.
  destruct (RegexRouter.serve_one app r) as [x app']. cbn in Happ. subst app'.
  by rewrite IH.
Qed.

(** A dispatch that panics is a handler of the table, or the default
    handler, panicking. *)
Lemma ServeHTTP_panic_source (r : http.Request) (st : RegexRouter.Serving)
  (msg : string) :
  fst (RegexRouter.ServeHTTP r st) = Panic msg ->
  exists h req,
    fst (h req (RegexRouter.w st)) = Panic msg /\
    (h = RegexRouter.DefaultRoute (RegexRouter.a st) \/
     exists rt, rt ∈ RegexRouter.Routes (RegexRouter.a st) /\
                h = RegexRouter.Handler_ rt).
Proof.
  destruct (first_match_cases (RegexRouter.Routes (RegexRouter.a st)) r)
    as [Hnone | (i & rt & Hi & Hhit & Hbefore)].
  - rewrite (ServeHTTP_miss r st Hnone). intros Hp.
    rewrite (proj1 (call_effect _ _ _ _)) in Hp.
    eexists _, _. split; [exact Hp|by left].
  - rewrite (ServeHTTP_hit r st i rt Hi Hhit Hbefore). intros Hp.
    rewrite (proj1 (call_effect _ _ _ _)) in Hp.
    eexists _, _. split; [exact Hp|].
    right. exists rt. split; [|done]. by eapply list_elem_of_lookup_2.
Qed.

End RegexServing.

Section ContextServing.
Context {L : RegexpLib}.

Lemma ctx_serve_one_app (app : ContextRouter.App) (r : http.Request) :
  snd (ContextRouter.serve_one app r) = app.
Proof.
  unfold ContextRouter.serve_one.
  pose proof (ctx_ServeHTTP_frame r
    {| ContextRouter.a := app; ContextRouter.w := http.NewWriter;
       ContextRouter.ran := [] |}) as Hframe.
  destruct (ContextRouter.ServeHTTP r _) as [[u|msg] st]; exact Hframe.
Qed.

Lemma ctx_ListenAndServe_map (app : ContextRouter.App)
  (incoming : list http.Request) :
  ContextRouter.ListenAndServe app incoming =
  map (fun r => fst (ContextRouter.serve_one app r)) incoming.
Proof.
  induction incoming as [|r rest IH]; [reflexivity|].
  cbn [ContextRouter.ListenAndServe map].
  pose proof (ctx_serve_one_app app r) as Happ.
  destruct (ContextRouter.serve_one app r) as [x app']. cbn in Happ. subst app'.
  by rewrite IH.
Qed.

End ContextServing.

Section ClosureServing.
Context {L : RegexpLib} {Env : Type}.








(** With nothing captured the router with closures is the router with
    [Request] and [Response]: same result, same writer. *)
Lemma closed_range_routes (capp : @ClosureRouter.App L Env) (e : Env)
  (routes : list (@RegexRouter.Route L)) (i : nat) (r : http.Request)
  (req : RegexRouter.Request) (st : @RegexRouter.Serving L) :
  ClosureRouter.range_routes
    (map (fun rt => {| ClosureRouter.Pattern := RegexRouter.Pattern rt;
                       ClosureRouter.Handler_ :=
                         ClosureRouter.closed (RegexRouter.Handler_ rt) |})
         routes) r req
    {| ClosureRouter.a := capp; ClosureRouter.env := e;
       ClosureRouter.w := RegexRouter.w st |} =
  (fst (RegexRouter.range_routes routes i r req st),
   {| ClosureRouter.a := capp; ClosureRouter.env := e;
      ClosureRouter.w :=
        RegexRouter.w (snd (RegexRouter.range_routes routes i r req st)) |}) /\
  RegexRouter.a (snd (RegexRouter.range_routes routes i r req st)) =
    RegexRouter.a st.
Proof.
  revert i. induction routes as [|rt rest IH]; intros i; [done|].
  cbn [map ClosureRouter.range_routes RegexRouter.range_routes
       ClosureRouter.Pattern ClosureRouter.Handler_].
  destruct (0 <? length _)%nat; [|apply IH].
  unfold bind, ClosureRouter.call, RegexRouter.call, ClosureRouter.closed, ret.
  cbn [ClosureRouter.a ClosureRouter.env ClosureRouter.w fst snd].
  by destruct (RegexRouter.Handler_ rt _ (RegexRouter.w st)) as [[[]|msg] w'].
Qed.

Lemma closed_serve_one (app : @RegexRouter.App L) (e : Env) (r : http.Request) :
  fst (ClosureRouter.serve_one (ClosureRouter.closed_app app) e r) =
  fst (RegexRouter.serve_one app r).
Proof.
  unfold ClosureRouter.serve_one, RegexRouter.serve_one,
    ClosureRouter.ServeHTTP, RegexRouter.ServeHTTP, bind.
  cbn [ClosureRouter.a RegexRouter.a].
  pose proof (closed_range_routes (ClosureRouter.closed_app app) e
                (RegexRouter.Routes app) 0 r
                {| RegexRouter.Request_ := r; RegexRouter.Params := [] |}
                {| RegexRouter.a := app; RegexRouter.w := http.NewWriter;
                   RegexRouter.ran := [] |}) as [Hloop Happ].
  cbn [RegexRouter.w RegexRouter.a] in Hloop, Happ.
  change (ClosureRouter.Routes (ClosureRouter.closed_app app)) with
    (map (fun rt => @ClosureRouter.Build_Route L Env (RegexRouter.Pattern rt)
                      (ClosureRouter.closed (RegexRouter.Handler_ rt)))
         (RegexRouter.Routes app)).
  rewrite Hloop. clear Hloop. revert Happ.
  destruct (RegexRouter.range_routes _ 0 r _ _) as [[[|]|msg] st'];
    cbn [fst snd RegexRouter.a]; intros Happ; unfold ret; try reflexivity.
  rewrite Happ.
  unfold ClosureRouter.call, RegexRouter.call.
  cbn [ClosureRouter.a ClosureRouter.env ClosureRouter.w
       ClosureRouter.closed_app ClosureRouter.DefaultRoute].
  unfold ClosureRouter.closed. cbn [fst snd].
  by destruct (RegexRouter.DefaultRoute app _ (RegexRouter.w st')) as [[[]|msg] w'].
Qed.

End ClosureServing.




(** ** Registration *)

(** C5 — [Handle] compiles the pattern and appends the route at the end of
    the route list: the routes already registered keep their positions,
    the new one comes last, the default handler stays, and a request that
    an earlier route served is still served by that route.  When the
    pattern does not compile, [Handle] panics, at registration, and leaves
    the router as it was; a set-up sequence with such a registration in it
    panics as a whole, and [main] then ends before it listens.  At request
    time nothing is compiled: a dispatch panics only when the handler it
    calls does. *)
Theorem Handle_appends_or_panics {L : RegexpLib}
  (pattern : string) (h : RegexRouter.Handler) (app : RegexRouter.App) :
  (forall re, MustCompile pattern = Ok re ->
     let route := {| RegexRouter.Pattern := re; RegexRouter.Handler_ := h |} in
     RegexRouter.Handle pattern h app =
       (Ok tt, {| RegexRouter.Routes := (RegexRouter.Routes app ++ [route])%list;
                  RegexRouter.DefaultRoute := RegexRouter.DefaultRoute app |}) /\
     (forall i rt, RegexRouter.Routes app !! i = Some rt ->
        RegexRouter.Routes (snd (RegexRouter.Handle pattern h app)) !! i = Some rt) /\
     RegexRouter.Routes (snd (RegexRouter.Handle pattern h app))
       !! length (RegexRouter.Routes app) = Some route /\
     (forall (r : http.Request) (w : http.ResponseWriter)
             (ran : list Invocation) (i : nat) (rt : RegexRouter.Route),
        RegexRouter.Routes app !! i = Some rt ->
        FindStringSubmatch (RegexRouter.Pattern rt) (url.Path (http.URL r)) <> [] ->
        (forall j rt', (j < i)%nat -> RegexRouter.Routes app !! j = Some rt' ->
           FindStringSubmatch (RegexRouter.Pattern rt') (url.Path (http.URL r)) = []) ->
        RegexRouter.ran
          (snd (RegexRouter.ServeHTTP r
                  {| RegexRouter.a := snd (RegexRouter.Handle pattern h app);
                     RegexRouter.w := w; RegexRouter.ran := ran |})) =
        RegexRouter.ran
          (snd (RegexRouter.ServeHTTP r
                  {| RegexRouter.a := app; RegexRouter.w := w;
                     RegexRouter.ran := ran |})))) /\
  (forall msg, MustCompile pattern = Panic msg ->
     RegexRouter.Handle pattern h app = (Panic msg, app) /\
     (forall (before after : Eff RegexRouter.App unit) (app0 : RegexRouter.App),
        before app0 = (Ok tt, app) ->
        fst (bind before
               (fun _ => bind (RegexRouter.Handle pattern h) (fun _ => after))
               app0) = Panic msg)) /\
  (forall msg (incoming : list http.Request),
     fst (RegexRouter.setup RegexRouter.NewApp) = Panic msg ->
     RegexRouter.main incoming = Panic msg) /\
  (forall (r : http.Request) (st : RegexRouter.Serving) (msg : string),
     fst (RegexRouter.ServeHTTP r st) = Panic msg ->
     exists handler req,
       fst (handler req (RegexRouter.w st)) = Panic msg /\
       (handler = RegexRouter.DefaultRoute (RegexRouter.a st) \/
        exists rt, rt ∈ RegexRouter.Routes (RegexRouter.a st) /\
                   handler = RegexRouter.Handler_ rt)).
Proof.
  split; [|split; [|split]].
  - intros re Hre route. unfold RegexRouter.Handle. rewrite Hre.
    cbn [snd RegexRouter.Routes]. fold route.
    split; [reflexivity|]. split; [|split].
    + intros i rt Hi. by apply lookup_app_l_Some.
    + rewrite lookup_app_r by lia. by rewrite Nat.sub_diag.
    + intros r w ran i rt Hi Hhit Hbefore.
      set (app' := {| RegexRouter.Routes := (RegexRouter.Routes app ++ [route])%list;
                      RegexRouter.DefaultRoute := RegexRouter.DefaultRoute app |}).
      assert (Hi' : RegexRouter.Routes app' !! i = Some rt)
        by by apply lookup_app_l_Some.
      assert (Hbefore' : forall j rt', (j < i)%nat ->
                RegexRouter.Routes app' !! j = Some rt' ->
                FindStringSubmatch (RegexRouter.Pattern rt')
                  (url.Path (http.URL r)) = []).
      { intros j rt' Hj Hl. apply (Hbefore j rt' Hj).
        apply lookup_lt_Some in Hi. cbn in Hl.
        by rewrite lookup_app_l in Hl by lia. }
      rewrite (ServeHTTP_hit r
                 {| RegexRouter.a := app'; RegexRouter.w := w;
                    RegexRouter.ran := ran |} i rt Hi' Hhit Hbefore').
      rewrite (ServeHTTP_hit r
                 {| RegexRouter.a := app; RegexRouter.w := w;
                    RegexRouter.ran := ran |} i rt Hi Hhit Hbefore).
      by rewrite !(proj2 (proj2 (proj2 (call_effect _ _ _ _)))).
  - intros msg Hp. unfold RegexRouter.Handle. rewrite Hp.
    split; [reflexivity|].
    intros before after app0 Hb. unfold bind. rewrite Hb. reflexivity.
  - intros msg incoming Hp. unfold RegexRouter.main.
    destruct (RegexRouter.setup RegexRouter.NewApp) as [[u|m] app'];
      cbn in Hp; congruence.
  - apply @ServeHTTP_panic_source.
Qed.

Lemma Handle_appends_or_panics_witness :
  (exists msg,
     RegexRouter.Handle "/hello/(" RegexRouter.hello_name demo_app =
     (Panic msg, demo_app)) /\
  RegexRouter.Routes
    (snd (RegexRouter.Handle "^/hello$" RegexRouter.hello_world demo_app))
    !! 2%nat =
  Some {| RegexRouter.Pattern := hello_re;
          RegexRouter.Handler_ := RegexRouter.hello_world |}.
Proof.
  split.
  - destruct (@Handle_appends_or_panics go_regexp "/hello/("
                RegexRouter.hello_name demo_app) as (_ & Hp & _ & _).
    eexists. apply Hp. vm_compute. reflexivity.
  - destruct (@Handle_appends_or_panics go_regexp "^/hello$"
                RegexRouter.hello_world demo_app) as (Hok & _ & _ & _).
    apply (Hok hello_re MustCompile_hello).
Defined.

(** ** Unanchored matching *)

Lemma orb_true_iff_neg (a b : bool) (P : Prop) :
  (a || b = true -> P) -> (a = true -> P) /\ (b = true -> P).
Proof. destruct a, b; cbn; tauto. Qed.

Lemma is_Some_orelse (x y : option (list Z)) :
  is_Some (regexp.orelse x y) <-> is_Some x \/ is_Some y.
Proof.
  destruct x as [c|]; cbn; split; eauto.
  intros [[? [=]]|H]; exact H.
Qed.

(** A continuation that succeeds still succeeds [d] bytes further into a
    text that goes on with [q]. *)
Definition carries (d : nat) (q : list ascii) (k k' : regexp.cont) : Prop :=
  forall j t c c', is_Some (k j t c) -> is_Some (k' (j + d)%nat (t ++ q)%list c').

Lemma star_extend
  (round : nat -> list ascii -> list Z -> regexp.cont -> option (list Z))
  (greedy : bool) (k k' : regexp.cont) (d : nat) (q : list ascii) :
  (forall i text caps caps' kk kk',
     carries d q kk kk' ->
     is_Some (round i text caps kk) ->
     is_Some (round (i + d)%nat (text ++ q)%list caps' kk')) ->
  carries d q k k' ->
  forall n n', (n <= n')%nat ->
  forall i text caps caps',
    is_Some (regexp.star round greedy k n i text caps) ->
    is_Some (regexp.star round greedy k' n' (i + d)%nat (text ++ q)%list caps').
Proof.
  intros Hround Hk. induction n as [|n IH]; intros n' Hle i text caps caps' Hs.
  - cbn in Hs. destruct n' as [|n']; cbn; [exact (Hk _ _ _ _ Hs)|].
    destruct greedy; apply is_Some_orelse; [right|left]; exact (Hk _ _ _ _ Hs).
  - destruct n' as [|n']; [lia|]. cbn in Hs |- *.
    assert (Hcase :
      is_Some (round i text caps
                 (fun j text' caps0 =>
                    if (i <? j)%nat
                    then regexp.star round greedy k n j text' caps0
                    else None)) \/
      is_Some (k i text caps)).
    { destruct greedy; apply is_Some_orelse in Hs; tauto. }
    assert (Hgoal :
      is_Some (round (i + d)%nat (text ++ q)%list caps'
                 (fun j text' caps0 =>
                    if (i + d <? j)%nat
                    then regexp.star round greedy k' n' j text' caps0
                    else None)) \/
      is_Some (k' (i + d)%nat (text ++ q)%list caps')).
    { destruct Hcase as [Hagain | Hexit]; [left | right; exact (Hk _ _ _ _ Hexit)].
      eapply Hround; [|exact Hagain].
      intros j t c c' Hj.
      destruct (i <? j)%nat eqn:Hij; [|by destruct Hj].
      apply Nat.ltb_lt in Hij.
      replace (i + d <? j + d)%nat with true
        by (symmetry; apply Nat.ltb_lt; lia).
      exact (IH n' ltac:(lia) _ _ _ _ Hj). }
    destruct greedy; apply is_Some_orelse; tauto.
Qed.

Lemma run_extend (re : syntax.Regexp) (d : nat) (q : list ascii) :
  (syntax.has_begin re = true -> d = 0%nat) ->
  (syntax.has_end re = true -> q = []) ->
  forall i text caps caps' k k',
    carries d q k k' ->
    is_Some (regexp.run re i text caps k) ->
    is_Some (regexp.run re (i + d)%nat (text ++ q)%list caps' k').
Proof.
  induction re as [ | c | items negated | | | | idx sub IH | g sub IH
                  | g sub IH | g sub IH | r1 IH1 r2 IH2 | r1 IH1 r2 IH2 ];
    cbn [syntax.has_begin syntax.has_end regexp.run];
    intros Hb He i text caps caps' k k' Hk Hrun.
  - exact (Hk _ _ _ _ Hrun).
  - destruct text as [|b text']; [by destruct Hrun|]. cbn.
    destruct (Ascii.eqb c b); [|by destruct Hrun].
    exact (Hk (S i) _ _ _ Hrun).
  - destruct text as [|b text']; [by destruct Hrun|]. cbn.
    destruct (syntax.in_class items negated b); [|by destruct Hrun].
    exact (Hk (S i) _ _ _ Hrun).
  - destruct text as [|b text']; [by destruct Hrun|]. cbn.
    destruct (syntax.code b =? 10)%nat; [by destruct Hrun|].
    exact (Hk (S i) _ _ _ Hrun).
  - pose proof (Hk i text caps caps') as Hk0.
    rewrite (Hb eq_refl), Nat.add_0_r in *.
    destruct (i =? 0)%nat; [auto|by destruct Hrun].
  - pose proof (Hk i text caps caps') as Hk0.
    rewrite (He eq_refl), app_nil_r in *.
    destruct text as [|b text']; [auto|by destruct Hrun].
  - eapply (IH Hb He); [|exact Hrun].
    intros j t c c' Hj. exact (Hk _ _ _ _ Hj).
  - rewrite length_app.
    exact (star_extend (regexp.run sub) g k k' d q
             (fun i0 t0 c0 c0' kk kk' Hkk => IH Hb He i0 t0 c0 c0' kk kk' Hkk)
             Hk (length text) (length text + length q)%nat ltac:(lia)
             i text caps caps' Hrun).
  - eapply (IH Hb He); [|exact Hrun].
    intros j t c c' Hj. rewrite length_app.
    exact (star_extend (regexp.run sub) g k k' d q
             (fun i0 t0 c0 c0' kk kk' Hkk => IH Hb He i0 t0 c0 c0' kk kk' Hkk)
             Hk (length t) (length t + length q)%nat ltac:(lia) j t c c' Hj).
  - assert (Hcase : is_Some (regexp.run sub i text caps k) \/
                    is_Some (k i text caps))
      by (destruct g; apply is_Some_orelse in Hrun; tauto).
    assert (Hgoal :
      is_Some (regexp.run sub (i + d)%nat (text ++ q)%list caps' k') \/
      is_Some (k' (i + d)%nat (text ++ q)%list caps')).
    { destruct Hcase as [Hsub | Hskip]; [left | right; exact (Hk _ _ _ _ Hskip)].
      by eapply (IH Hb He). }
    destruct g; apply is_Some_orelse; tauto.
  - apply orb_true_iff_neg in Hb. apply orb_true_iff_neg in He.
    eapply (IH1 (proj1 Hb) (proj1 He)); [|exact Hrun].
    intros j t c c' Hj. by eapply (IH2 (proj2 Hb) (proj2 He)).
  - apply orb_true_iff_neg in Hb. apply orb_true_iff_neg in He.
    apply is_Some_orelse. apply is_Some_orelse in Hrun.
    destruct Hrun as [H1 | H2]; [left | right].
    + by eapply (IH1 (proj1 Hb) (proj1 He)).
    + by eapply (IH2 (proj2 Hb) (proj2 He)).
Qed.

Lemma search_found (re : regexp.Regexp) (text : list ascii) (i : nat) :
  is_Some (regexp.search re i text) ->
  exists l t,
    text = (l ++ t)%list /\
    is_Some (regexp.run (syntax.Capture 0 (regexp.prog re)) (i + length l)%nat t
               (replicate (2 * S (regexp.numSubexp re)) (-1)) regexp.accept).
Proof.
  revert i. induction text as [|b text IH]; intros i Hs.
  - exists [], []. split; [done|]. cbn [regexp.search] in Hs.
    cbn [length]. rewrite Nat.add_0_r.
    destruct (regexp.run _ i [] _ regexp.accept); [done | by destruct Hs].
  - cbn [regexp.search] in Hs.
    destruct (regexp.run (syntax.Capture 0 (regexp.prog re)) i (b :: text) _
                regexp.accept) eqn:Hrun.
    + exists [], (b :: text). split; [done|].
      cbn [length]. rewrite Nat.add_0_r. by rewrite Hrun.
    + destruct (IH (S i) Hs) as (l & t & -> & Ht).
      exists (b :: l), t. split; [done|].
      cbn [length]. by replace (i + S (length l))%nat with (S i + length l)%nat by lia.
Qed.

Lemma search_complete (re : regexp.Regexp) (l t : list ascii) (i : nat) :
  is_Some (regexp.run (syntax.Capture 0 (regexp.prog re)) (i + length l)%nat t
             (replicate (2 * S (regexp.numSubexp re)) (-1)) regexp.accept) ->
  is_Some (regexp.search re i (l ++ t)%list).
Proof.
  revert i. induction l as [|b l IH]; intros i Hrun.
  - cbn [length app] in *. rewrite Nat.add_0_r in Hrun.
    destruct t as [|b t]; cbn [regexp.search];
      destruct (regexp.run _ i _ _ regexp.accept); done || by destruct Hrun.
  - cbn [app regexp.search].
    destruct (regexp.run _ i (b :: (l ++ t)%list) _ regexp.accept); [done|].
    apply IH. cbn [length] in Hrun.
    by replace (S i + length l)%nat with (i + S (length l))%nat by lia.
Qed.

Lemma list_ascii_of_string_app (s1 s2 : string) :
  list_ascii_of_string (s1 +:+ s2) =
  (list_ascii_of_string s1 ++ list_ascii_of_string s2)%list.
Proof.
  induction s1 as [|c s1 IH]; [done|].
  change (String c s1 +:+ s2) with (String c (s1 +:+ s2)).
  cbn. by f_equal.
Qed.

Lemma submatch_is_search (re : regexp.Regexp) (s : string) :
  regexp.FindStringSubmatch re s <> [] <->
  is_Some (regexp.search re 0 (list_ascii_of_string s)).
Proof.
  unfold regexp.FindStringSubmatch.
  destruct (regexp.search re 0 (list_ascii_of_string s)) as [caps|].
  - split; [done|]. intros _. cbn. discriminate.
  - split; [done|]. by intros [? [=]].
Qed.

(** A match survives text put before it, unless the pattern is anchored at
    the start, and text put after it, unless it is anchored at the end. *)
Lemma unanchored_search (re : regexp.Regexp) (p s q : string) :
  (syntax.has_begin (regexp.prog re) = true -> p = "") ->
  (syntax.has_end (regexp.prog re) = true -> q = "") ->
  regexp.FindStringSubmatch re s <> [] ->
  regexp.FindStringSubmatch re (p +:+ s +:+ q) <> [].
Proof.
  intros Hb He Hm. apply submatch_is_search. apply submatch_is_search in Hm.
  destruct (search_found re _ 0 Hm) as (l & t & Hs & Hrun).
  rewrite !list_ascii_of_string_app, Hs.
  replace (list_ascii_of_string p ++ (l ++ t) ++ list_ascii_of_string q)%list
    with ((list_ascii_of_string p ++ l) ++ (t ++ list_ascii_of_string q))%list
    by (by rewrite <- !app_assoc).
  apply search_complete. rewrite length_app.
  replace (0 + (length (list_ascii_of_string p) + length l))%nat
    with ((0 + length l) + length (list_ascii_of_string p))%nat by lia.
  eapply (run_extend (syntax.Capture 0 (regexp.prog re))); [| | |exact Hrun].
  - intros H. by rewrite (Hb H).
  - intros H. by rewrite (He H).
  - intros j t' c c' _. by cbn.
Qed.

Lemma append_empty_r (s : string) : s +:+ "" = s.
Proof.
  induction s as [|c s IH]; [done|].
  change (String c s +:+ "") with (String c (s +:+ "")). by f_equal.
Qed.

(** C9 — Matching is a search for a substring, not a match of the whole
    path.  In general: when a pattern matches a text, it also matches that
    text with anything put before it, unless the pattern is anchored at
    the start, and with anything put after it, unless it is anchored at
    the end.  For the demonstrated table: the path [/x/hello/Patrick],
    which does not begin with [/hello/], matches the second route's
    pattern, is dispatched to that route's handler with the capture
    [Patrick], and is answered with status 200 and body
    ["Hello Patrick\n"]; the same holds with any other text in front of a
    path that this pattern matches. *)
Theorem matching_is_unanchored_search :
  (forall (re : regexp.Regexp) (p s q : string),
     (syntax.has_begin (regexp.prog re) = true -> p = "") ->
     (syntax.has_end (regexp.prog re) = true -> q = "") ->
     regexp.FindStringSubmatch re s <> [] ->
     regexp.FindStringSubmatch re (p +:+ s +:+ q) <> []) /\
  RegexRouter.setup RegexRouter.NewApp = (Ok tt, demo_app) /\
  RegexRouter.Routes demo_app !! 1%nat =
    Some {| RegexRouter.Pattern := hello_name_re;
            RegexRouter.Handler_ := RegexRouter.hello_name |} /\
  regexp.MustCompile "/hello/([\w\._-]+)$" = Ok hello_name_re /\
  regexp.FindStringSubmatch hello_name_re "/x/hello/Patrick" =
    ["/hello/Patrick"; "Patrick"] /\
  RegexRouter.ServeHTTP (get "/x/hello/Patrick") (fresh demo_app) =
    RegexRouter.call (Routed 1) RegexRouter.hello_name
      {| RegexRouter.Request_ := get "/x/hello/Patrick";
         RegexRouter.Params := ["Patrick"] |} (fresh demo_app) /\
  RegexRouter.ran
    (snd (RegexRouter.ServeHTTP (get "/x/hello/Patrick") (fresh demo_app))) =
    [{| target := Routed 1; params := ["Patrick"] |}] /\
  http.response
    (RegexRouter.w
       (snd (RegexRouter.ServeHTTP (get "/x/hello/Patrick") (fresh demo_app)))) =
    plain 200 "Hello Patrick" /\
  (forall p s : string,
     regexp.FindStringSubmatch hello_name_re s <> [] ->
     regexp.FindStringSubmatch hello_name_re (p +:+ s) <> []).
Proof.
  split; [exact unanchored_search|].
  split; [exact demo_setup|].
  split; [reflexivity|].
  split; [exact MustCompile_hello_name|].
  split; [vm_compute; reflexivity|].
  assert (Hserve :
    RegexRouter.ServeHTTP (get "/x/hello/Patrick") (fresh demo_app) =
    RegexRouter.call (Routed 1) RegexRouter.hello_name
      {| RegexRouter.Request_ := get "/x/hello/Patrick";
         RegexRouter.Params := ["Patrick"] |} (fresh demo_app)).
  { refine (ServeHTTP_hit (get "/x/hello/Patrick") (fresh demo_app) 1%nat
              {| RegexRouter.Pattern := hello_name_re;
                 RegexRouter.Handler_ := RegexRouter.hello_name |} _ _ _).
    - reflexivity.
    - eval_submatch. discriminate.
    - intros [|j] rt' Hj Hl; [|lia].
      injection Hl as <-. eval_submatch. reflexivity. }
  split; [exact Hserve|]. rewrite Hserve.
  split; [reflexivity|]. split; [vm_compute; reflexivity|].
  intros p s Hm.
  pose proof (unanchored_search hello_name_re p s "") as Hu.
  replace (p +:+ s +:+ "") with (p +:+ s) in Hu
    by (by rewrite append_empty_r).
  apply Hu; [discriminate | done | exact Hm].
Qed.

Lemma matching_is_unanchored_search_witness :
  regexp.FindStringSubmatch hello_name_re ("/x" +:+ "/hello/Patrick" +:+ "") <> [].
Proof.
  apply (proj1 matching_is_unanchored_search hello_name_re "/x" "/hello/Patrick" "").
  - discriminate.
  - reflexivity.
  - vm_compute. discriminate.
Defined.

(** * Further properties of the routers *)

(** ** Shadowed routes *)

(** X1 — A route registered after another whose pattern matches every path
    that its own pattern matches is never dispatched to: whatever the
    request, the handler that runs is not that route's. *)
Theorem shadowed_route_never_runs {L : RegexpLib}
  (st : RegexRouter.Serving) (i j : nat) (rt_i rt_j : RegexRouter.Route) :
  (i < j)%nat ->
  RegexRouter.Routes (RegexRouter.a st) !! i = Some rt_i ->
  RegexRouter.Routes (RegexRouter.a st) !! j = Some rt_j ->
  (forall path,
     FindStringSubmatch (RegexRouter.Pattern rt_j) path <> [] ->
     FindStringSubmatch (RegexRouter.Pattern rt_i) path <> []) ->
  forall (r : http.Request) (ps : list string),
    RegexRouter.ran (snd (RegexRouter.ServeHTTP r st)) <>
    (RegexRouter.ran st ++ [{| target := Routed j; params := ps |}])%list.
Proof.
  intros Hij Hi Hj Hshadow r ps Hran.
  destruct (first_match_cases (RegexRouter.Routes (RegexRouter.a st)) r)
    as [Hnone | (k & rt & Hk & Hhit & Hbefore)].
  - rewrite (ServeHTTP_miss r st Hnone) in Hran.
    rewrite (proj2 (proj2 (proj2 (call_effect _ _ _ _)))) in Hran.
    apply app_inv_head in Hran. discriminate.
  - rewrite (ServeHTTP_hit r st k rt Hk Hhit Hbefore) in Hran.
    rewrite (proj2 (proj2 (proj2 (call_effect _ _ _ _)))) in Hran.
    apply app_inv_head in Hran. injection Hran as -> _.
    rewrite Hj in Hk. injection Hk as <-.
    apply (Hshadow _) in Hhit. apply Hhit.
    exact (Hbefore i rt_i Hij Hi).
Qed.

Lemma shadowed_route_never_runs_witness :
  RegexRouter.ran
    (snd (RegexRouter.ServeHTTP (get "/hello")
            (fresh (snd (RegexRouter.Handle "^/hello$" RegexRouter.hello_name
                           demo_app))))) <>
  [{| target := Routed 2; params := [] |}].
Proof.
  refine (@shadowed_route_never_runs go_regexp
            (fresh (snd (RegexRouter.Handle "^/hello$" RegexRouter.hello_name
                           demo_app)))
            0%nat 2%nat
            {| RegexRouter.Pattern := hello_re;
               RegexRouter.Handler_ := RegexRouter.hello_world |}
            {| RegexRouter.Pattern := hello_re;
               RegexRouter.Handler_ := RegexRouter.hello_name |} _ _ _ _
            (get "/hello") []).
  - lia.
  - reflexivity.
  - reflexivity.
  - intros path Hm. exact Hm.
Defined.

(** ** The two routers agree *)

Section RouterAgreement.
Context {L : RegexpLib}.

(** A result of the first router, read in the second. *)
Definition in_context {A} (x : result A * RegexRouter.Serving)
  : result A * ContextRouter.Serving :=
  (fst x, as_context_serving (snd x)).

Lemma as_context_call (t : Target) (h : RegexRouter.Handler)
  (r : http.Request) (ps : list string) (st : RegexRouter.Serving) :
  ContextRouter.call t (as_context_handler h)
    {| ContextRouter.Request_ := r; ContextRouter.Params := ps |}
    (as_context_serving st) =
  in_context (RegexRouter.call t h
                {| RegexRouter.Request_ := r; RegexRouter.Params := ps |} st).
Proof.
  unfold ContextRouter.call, RegexRouter.call, in_context, as_context_handler.
  cbn. by destruct (h _ (RegexRouter.w st)).
Qed.

Lemma as_context_range (routes : list RegexRouter.Route) (i : nat)
  (r : http.Request) (ps : list string) (st : RegexRouter.Serving) :
  ContextRouter.range_routes (map as_context_route routes) i
    {| ContextRouter.Request_ := r; ContextRouter.Params := ps |}
    (as_context_serving st) =
  in_context (RegexRouter.range_routes routes i r
                {| RegexRouter.Request_ := r; RegexRouter.Params := ps |} st).
Proof.
  revert i. induction routes as [|rt rest IH]; intros i; [reflexivity|].
  cbn [map ContextRouter.range_routes RegexRouter.range_routes
       ContextRouter.Request_ RegexRouter.Request_
       as_context_route ContextRouter.Pattern ContextRouter.Handler_].
  destruct (0 <? length _)%nat; [|apply IH].
  unfold bind.
  destruct (1 <? length _)%nat; rewrite as_context_call; unfold in_context;
    by destruct (RegexRouter.call _ _ _ st) as [[[]|msg] st'].
Qed.

Lemma as_context_ServeHTTP (r : http.Request) (st : RegexRouter.Serving) :
  ContextRouter.ServeHTTP r (as_context_serving st) =
  in_context (RegexRouter.ServeHTTP r st).
Proof.
  unfold ContextRouter.ServeHTTP, RegexRouter.ServeHTTP, bind.
  change (ContextRouter.Routes (ContextRouter.a (as_context_serving st)))
    with (map as_context_route (RegexRouter.Routes (RegexRouter.a st))).
  rewrite as_context_range. unfold in_context.
  destruct (RegexRouter.range_routes _ 0 r _ st) as [[[|]|msg] st'];
    cbn [fst snd]; try reflexivity.
  change (ContextRouter.DefaultRoute (ContextRouter.a (as_context_serving st')))
    with (as_context_handler (RegexRouter.DefaultRoute (RegexRouter.a st'))).
  apply as_context_call.
Qed.

Lemma as_context_serve_one (app : RegexRouter.App) (r : http.Request) :
  ContextRouter.serve_one (as_context_app app) r =
  (fst (RegexRouter.serve_one app r),
   as_context_app (snd (RegexRouter.serve_one app r))).
Proof.
  unfold ContextRouter.serve_one, RegexRouter.serve_one.
  change {| ContextRouter.a := as_context_app app;
            ContextRouter.w := http.NewWriter; ContextRouter.ran := [] |}
    with (as_context_serving
            {| RegexRouter.a := app; RegexRouter.w := http.NewWriter;
               RegexRouter.ran := [] |}).
  rewrite as_context_ServeHTTP. unfold in_context.
  by destruct (RegexRouter.ServeHTTP r _) as [[u|msg] st].
Qed.

Lemma as_context_ListenAndServe (app : RegexRouter.App)
  (incoming : list http.Request) :
  ContextRouter.ListenAndServe (as_context_app app) incoming =
  RegexRouter.ListenAndServe app incoming.
Proof.
  revert app. induction incoming as [|r rest IH]; intros app; [reflexivity|].
  cbn [ContextRouter.ListenAndServe RegexRouter.ListenAndServe].
  rewrite as_context_serve_one.
  destruct (RegexRouter.serve_one app r) as [x app']. cbn [fst snd].
  by rewrite IH.
Qed.

Lemma as_context_Handle (pattern : string) (h : RegexRouter.Handler)
  (app : RegexRouter.App) :
  ContextRouter.Handle pattern (as_context_handler h) (as_context_app app) =
  (fst (RegexRouter.Handle pattern h app),
   as_context_app (snd (RegexRouter.Handle pattern h app))).
Proof.
  unfold ContextRouter.Handle, RegexRouter.Handle.
  destruct (MustCompile pattern) as [re|msg]; [|reflexivity].
  cbn [fst snd]. unfold as_context_app at 3. cbn [RegexRouter.Routes].
  by rewrite map_app.
Qed.

Lemma as_context_setup :
  ContextRouter.setup ContextRouter.NewApp =
  (fst (RegexRouter.setup RegexRouter.NewApp),
   as_context_app (snd (RegexRouter.setup RegexRouter.NewApp))).
Proof.
  unfold ContextRouter.setup, RegexRouter.setup, bind.
  change ContextRouter.NewApp with (as_context_app RegexRouter.NewApp).
  change ContextRouter.hello_world
    with (as_context_handler RegexRouter.hello_world).
  change ContextRouter.hello_name
    with (as_context_handler RegexRouter.hello_name).
  rewrite as_context_Handle.
  destruct (RegexRouter.Handle "^/hello$" _ _) as [[u|msg] app1];
    cbn [fst snd]; [|reflexivity].
  apply as_context_Handle.
Qed.

End RouterAgreement.

(** X2 — The router with a [Context] behaves as the router with [Request]
    and [Response]: on corresponding route tables a dispatch gives the same
    outcome, the same writes and the same record of calls, and leaves
    corresponding tables; and the two [main] programs answer every
    sequence of requests with the same exchanges, or end with the same
    panic. *)
Theorem context_router_agrees {L : RegexpLib} :
  (forall (r : http.Request) (st : RegexRouter.Serving),
     ContextRouter.ServeHTTP r (as_context_serving st) =
     (fst (RegexRouter.ServeHTTP r st),
      as_context_serving (snd (RegexRouter.ServeHTTP r st)))) /\
  (forall (pattern : string) (h : RegexRouter.Handler) (app : RegexRouter.App),
     ContextRouter.Handle pattern (as_context_handler h) (as_context_app app) =
     (fst (RegexRouter.Handle pattern h app),
      as_context_app (snd (RegexRouter.Handle pattern h app)))) /\
  (forall incoming : list http.Request,
     ContextRouter.main incoming = RegexRouter.main incoming).
Proof.
  split; [exact as_context_ServeHTTP|]. split; [exact as_context_Handle|].
  intros incoming. unfold ContextRouter.main, RegexRouter.main.
  rewrite as_context_setup.
  destruct (RegexRouter.setup RegexRouter.NewApp) as [[u|msg] app];
    cbn [fst snd]; [|reflexivity].
  by rewrite as_context_ListenAndServe.
Qed.

(** ** What the demonstrated patterns match *)

Lemma orelse_None_r (x : option (list Z)) : regexp.orelse x None = x.
Proof. by destruct x. Qed.

Lemma orelse_Some (x y : option (list Z)) (out : list Z) :
  regexp.orelse x y = Some out -> x = Some out \/ y = Some out.
Proof. destruct x; cbn; auto. Qed.

Lemma run_literal_inv (c : ascii) (re : syntax.Regexp) (i : nat)
  (text : list ascii) (caps : list Z) (k : regexp.cont) (out : list Z) :
  regexp.run (syntax.Concat (syntax.Literal c) re) i text caps k = Some out ->
  exists text', text = c :: text' /\ regexp.run re (S i) text' caps k = Some out.
Proof.
  cbn. destruct text as [|b text']; [discriminate|].
  destruct (Ascii.eqb_spec c b) as [->|]; [eauto | discriminate].
Qed.

Section ClassLoop.
Variables (items : list syntax.citem) (negated : bool) (K : regexp.cont).

Let cls := syntax.CharClass items negated.

(** A loop over a class, followed by something that needs the end of the
    text: when it succeeds, the rest of the text was all in the class. *)
Lemma star_class_inv (greedy : bool) :
  (forall j t c, is_Some (K j t c) -> t = []) ->
  forall n i t caps out,
    regexp.star (regexp.run cls) greedy K n i t caps = Some out ->
    forallb (syntax.in_class items negated) t = true /\
    K (i + length t)%nat [] caps = Some out.
Proof.
  intros HK. induction n as [|n IH]; intros i t caps out Hs.
  - cbn in Hs. assert (t = []) as -> by (eapply HK; by rewrite Hs).
    cbn. by rewrite Nat.add_0_r.
  - cbn [regexp.star] in Hs.
    assert (Hcase :
      regexp.run cls i t caps
        (fun j text' caps' =>
           if (i <? j)%nat
           then regexp.star (regexp.run cls) greedy K n j text' caps'
           else None) = Some out \/
      K i t caps = Some out).
    { destruct greedy; apply orelse_Some in Hs; tauto. }
    destruct Hcase as [Hagain | Hexit].
    + subst cls. cbn [regexp.run] in Hagain.
      destruct t as [|b t']; [discriminate|].
      destruct (syntax.in_class items negated b) eqn:Hb; [|discriminate].
      replace (i <? S i)%nat with true in Hagain
        by (symmetry; apply Nat.ltb_lt; lia).
      destruct (IH _ _ _ _ Hagain) as [Hall Hend].
      cbn [forallb length]. rewrite Hb, Hall. split; [done|].
      by replace (i + S (length t'))%nat with (S i + length t')%nat by lia.
    + assert (t = []) as -> by (eapply HK; by rewrite Hexit).
      cbn. by rewrite Nat.add_0_r.
Qed.

(** The greedy loop takes all of a text that is in the class. *)
Lemma star_class_all :
  (forall j b t c, K j (b :: t) c = None) ->
  forall t n i caps,
    (length t <= n)%nat ->
    forallb (syntax.in_class items negated) t = true ->
    regexp.star (regexp.run cls) true K n i t caps =
    K (i + length t)%nat [] caps.
Proof.
  intros HK. induction t as [|b t IH]; intros n i caps Hn Hall.
  - cbn [length]. rewrite Nat.add_0_r.
    destruct n as [|n]; [reflexivity|]. by cbn.
  - destruct n as [|n]; [cbn in Hn; lia|].
    cbn [forallb] in Hall. apply andb_true_iff in Hall as [Hb Hall].
    cbn [regexp.star]. rewrite HK, orelse_None_r.
    subst cls. cbn [regexp.run]. rewrite Hb.
    replace (i <? S i)%nat with true by (symmetry; apply Nat.ltb_lt; lia).
    rewrite IH by (cbn in Hn; lia || done).
    cbn [length]. by replace (i + S (length t))%nat with (S i + length t)%nat by lia.
Qed.

End ClassLoop.

Lemma name_byte_class (c : ascii) :
  syntax.in_class
    [syntax.CPerl syntax.Word false; syntax.CRange "." ".";
     syntax.CRange "_" "_"; syntax.CRange "-" "-"] false c = name_byte c.
Proof.
  destruct c as [[] [] [] [] [] [] [] []]; vm_compute; reflexivity.
Qed.

(** ** Unfolding the matcher *)

Lemma run_capture idx sub i t caps k :
  regexp.run (syntax.Capture idx sub) i t caps k =
  regexp.run sub i t (<[(2 * idx)%nat := Z.of_nat i]> caps)
    (fun j text' caps' => k j text' (<[(2 * idx + 1)%nat := Z.of_nat j]> caps')).
Proof. reflexivity. Qed.

Lemma run_concat r1 r2 i t caps k :
  regexp.run (syntax.Concat r1 r2) i t caps k =
  regexp.run r1 i t caps (fun j text' caps' => regexp.run r2 j text' caps' k).
Proof. reflexivity. Qed.

Lemma run_plus g sub i t caps k :
  regexp.run (syntax.Plus g sub) i t caps k =
  regexp.run sub i t caps
    (fun j text' caps' =>
       regexp.star (regexp.run sub) g k (length text') j text' caps').
Proof. reflexivity. Qed.

Lemma run_class items negated i t caps k :
  regexp.run (syntax.CharClass items negated) i t caps k =
  match t with
  | b :: text' =>
      if syntax.in_class items negated b then k (S i) text' caps else None
  | [] => None
  end.
Proof. reflexivity. Qed.

Lemma forallb_pointwise {A} (f g : A -> bool) (l : list A) :
  (forall x, f x = g x) -> forallb f l = forallb g l.
Proof. intros Hfg. induction l as [|x l IH]; cbn; [done|]. by rewrite Hfg, IH. Qed.

Lemma hello_name_run_inv (off : nat) (t : list ascii) (out : list Z) :
  regexp.run (syntax.Capture 0 (regexp.prog hello_name_re)) off t
    (replicate (2 * S (regexp.numSubexp hello_name_re)) (-1)) regexp.accept = Some out ->
  exists name,
    t = (hello_prefix ++ name)%list /\ name <> [] /\
    forallb name_byte name = true /\ out = name_caps off (length name).
Proof.
  unfold hello_name_re. cbn [regexp.prog regexp.numSubexp].
  rewrite run_capture. intros H.
  apply run_literal_inv in H as (t1 & -> & H).
  apply run_literal_inv in H as (t2 & -> & H).
  apply run_literal_inv in H as (t3 & -> & H).
  apply run_literal_inv in H as (t4 & -> & H).
  apply run_literal_inv in H as (t5 & -> & H).
  apply run_literal_inv in H as (t6 & -> & H).
  apply run_literal_inv in H as (t7 & -> & H).
  rewrite run_concat, run_capture, run_plus, run_class in H.
  destruct t7 as [|b name]; [discriminate|].
  destruct (syntax.in_class _ false b) eqn:Hb; [|discriminate].
  apply star_class_inv in H as [Hall Hend].
  - exists (b :: name). split; [reflexivity|]. split; [discriminate|].
    split.
    + cbn [forallb]. rewrite <- name_byte_class, Hb. cbn.
      by rewrite <- (forallb_pointwise _ name_byte name name_byte_class).
    + cbn in Hend. injection Hend as <-. unfold name_caps. cbn [length].
      repeat f_equal; lia.
  - intros j t c Hk. destruct t; [done|]. cbn in Hk. by destruct Hk.
Qed.

Lemma run_literal (c : ascii) (re : syntax.Regexp) (i : nat)
  (text : list ascii) (caps : list Z) (k : regexp.cont) :
  regexp.run (syntax.Concat (syntax.Literal c) re) i (c :: text) caps k =
  regexp.run re (S i) text caps k.
Proof. cbn. by rewrite Ascii.eqb_refl. Qed.

Lemma hello_name_run (off : nat) (name : list ascii) :
  name <> [] ->
  forallb name_byte name = true ->
  regexp.run (syntax.Capture 0 (regexp.prog hello_name_re)) off
    (hello_prefix ++ name)%list
    (replicate (2 * S (regexp.numSubexp hello_name_re)) (-1)) regexp.accept =
  Some (name_caps off (length name)).
Proof.
  intros Hne Hall. unfold hello_name_re, hello_prefix.
  cbn [regexp.prog regexp.numSubexp list_ascii_of_string app].
  rewrite run_capture. rewrite !run_literal.
  rewrite run_concat, run_capture, run_plus, run_class.
  destruct name as [|b name]; [done|].
  cbn [forallb] in Hall. apply andb_true_iff in Hall as [Hb Hall].
  rewrite name_byte_class, Hb.
  rewrite star_class_all.
  - cbn. unfold name_caps. cbn [length]. repeat f_equal; lia.
  - intros j c t caps. reflexivity.
  - lia.
  - by rewrite (forallb_pointwise _ name_byte name name_byte_class).
Qed.

Lemma search_found_caps (re : regexp.Regexp) (text : list ascii) (i : nat)
  (caps : list Z) :
  regexp.search re i text = Some caps ->
  exists l t,
    text = (l ++ t)%list /\
    regexp.run (syntax.Capture 0 (regexp.prog re)) (i + length l)%nat t
      (replicate (2 * S (regexp.numSubexp re)) (-1)) regexp.accept = Some caps.
Proof.
  revert i. induction text as [|b text IH]; intros i Hs.
  - exists [], []. split; [done|]. cbn [regexp.search] in Hs.
    cbn [length]. rewrite Nat.add_0_r.
    by destruct (regexp.run _ i [] _ regexp.accept).
  - cbn [regexp.search] in Hs.
    destruct (regexp.run (syntax.Capture 0 (regexp.prog re)) i (b :: text) _
                regexp.accept) eqn:Hrun.
    + exists [], (b :: text). split; [done|].
      cbn [length]. rewrite Nat.add_0_r. by rewrite Hrun.
    + destruct (IH (S i) Hs) as (l & t & -> & Ht).
      exists (b :: l), t. split; [done|].
      cbn [length]. by replace (i + S (length l))%nat with (S i + length l)%nat by lia.
Qed.

Lemma string_of_list_ascii_app (l1 l2 : list ascii) :
  string_of_list_ascii (l1 ++ l2) =
  string_of_list_ascii l1 +:+ string_of_list_ascii l2.
Proof.
  induction l1 as [|c l1 IH]; [done|]. cbn [app string_of_list_ascii].
  rewrite IH. reflexivity.
Qed.

Lemma length_string_of_list_ascii (l : list ascii) :
  String.length (string_of_list_ascii l) = length l.
Proof. induction l as [|c l IH]; cbn; [done | by rewrite IH]. Qed.

Lemma substring_skip (p s : string) (m : nat) :
  String.substring (String.length p) m (p +:+ s) = String.substring 0 m s.
Proof.
  induction p as [|c p IH]; [done|].
  change (String c p +:+ s) with (String c (p +:+ s)). cbn. exact IH.
Qed.

Lemma substring_whole (s t : string) :
  String.substring 0 (String.length s) (s +:+ t) = s.
Proof.
  induction s as [|c s IH]; [by destruct t|].
  change (String c s +:+ t) with (String c (s +:+ t)). cbn. by rewrite IH.
Qed.

(** The last slash of a text and what follows it. *)
Lemma last_slash_unique (l1 l2 n1 n2 : list ascii) :
  (l1 ++ "/"%char :: n1 = l2 ++ "/"%char :: n2)%list ->
  forallb name_byte n1 = true ->
  forallb name_byte n2 = true ->
  l1 = l2 /\ n1 = n2.
Proof.
  assert (Hslash : forall (n l : list ascii),
            forallb name_byte (l ++ "/"%char :: n) = true -> False).
  { intros n l. rewrite forallb_app. cbn. rewrite andb_false_r. discriminate. }
  revert l2. induction l1 as [|c l1 IH]; intros [|c2 l2] Heq H1 H2; cbn in Heq.
  - by injection Heq as ->.
  - injection Heq as <- ->. by destruct (Hslash n2 l2).
  - injection Heq as -> <-. by destruct (Hslash n1 l1).
  - injection Heq as -> Heq. destruct (IH l2 Heq H1 H2) as [-> ->]. done.
Qed.

Lemma length_append (s t : string) :
  String.length (s +:+ t) = (String.length s + String.length t)%nat.
Proof.
  induction s as [|c s IH]; [done|].
  change (String c s +:+ t) with (String c (s +:+ t)). cbn. by rewrite IH.
Qed.

Lemma append_assoc (s t u : string) : (s +:+ t) +:+ u = s +:+ t +:+ u.
Proof.
  induction s as [|c s IH]; [done|].
  change (String c s +:+ t) with (String c (s +:+ t)).
  change (String c (s +:+ t) +:+ u) with (String c ((s +:+ t) +:+ u)).
  change (String c s +:+ t +:+ u) with (String c (s +:+ t +:+ u)).
  by rewrite IH.
Qed.

Lemma substring_all (s : string) : String.substring 0 (String.length s) s = s.
Proof. rewrite <- (append_empty_r s) at 2. apply substring_whole. Qed.

Lemma group_name_caps (s : string) (off n : nat) :
  regexp.group s (name_caps off n) 0 = String.substring off (7 + n) s /\
  regexp.group s (name_caps off n) 1 = String.substring (off + 7) n s.
Proof.
  unfold regexp.group, name_caps. cbn [lookup list_lookup Nat.mul Nat.add].
  split.
  - replace ((0 <=? Z.of_nat off) && (Z.of_nat off <=? Z.of_nat (off + 7 + n)))
      with true by (symmetry; apply andb_true_iff; split; apply Z.leb_le; lia).
    f_equal; lia.
  - replace ((0 <=? Z.of_nat (off + 7))
             && (Z.of_nat (off + 7) <=? Z.of_nat (off + 7 + n)))
      with true by (symmetry; apply andb_true_iff; split; apply Z.leb_le; lia).
    f_equal; lia.
Qed.

Lemma valid_name_list (name : list ascii) :
  name <> [] ->
  forallb name_byte name = true ->
  valid_name (string_of_list_ascii name) = true.
Proof.
  intros Hne Hall. unfold valid_name.
  rewrite list_ascii_of_string_of_list_ascii, Hall, andb_true_r.
  destruct name; [done | reflexivity].
Qed.

Lemma valid_name_inv (name : string) :
  valid_name name = true ->
  list_ascii_of_string name <> [] /\
  forallb name_byte (list_ascii_of_string name) = true.
Proof.
  unfold valid_name. intros [Hne Hall]%andb_true_iff. split; [|done].
  by destruct name.
Qed.

(** What the pattern of the second route matches, and what it captures. *)
Lemma hello_name_submatch_inv (path : string) :
  regexp.FindStringSubmatch hello_name_re path <> [] ->
  exists p name,
    path = p +:+ "/hello/" +:+ name /\
    valid_name name = true /\
    regexp.FindStringSubmatch hello_name_re path = ["/hello/" +:+ name; name].
Proof.
  unfold regexp.FindStringSubmatch.
  destruct (regexp.search hello_name_re 0 (list_ascii_of_string path))
    as [caps|] eqn:Hs; [intros _ | done].
  destruct (search_found_caps _ _ _ _ Hs) as (l & t & Hpath & Hrun).
  destruct (hello_name_run_inv _ _ _ Hrun) as (name & -> & Hne & Hall & ->).
  exists (string_of_list_ascii l), (string_of_list_ascii name).
  assert (Hp : path = string_of_list_ascii l +:+ "/hello/"
                        +:+ string_of_list_ascii name).
  { rewrite <- (string_of_list_ascii_of_string path), Hpath.
    by rewrite !string_of_list_ascii_app. }
  split; [exact Hp|]. split; [by apply valid_name_list|].
  change (regexp.numSubexp hello_name_re) with 1%nat. cbn [seq map].
  destruct (group_name_caps path (0 + length l) (length name)) as [-> ->].
  rewrite <- !length_string_of_list_ascii. rewrite Hp at 1 2.
  cbn [Nat.add]. f_equal; [|f_equal].
  - rewrite substring_skip.
    change (S (S (S (S (S (S (S (String.length (string_of_list_ascii name)))))))))
      with (String.length ("/hello/" +:+ string_of_list_ascii name)).
    apply substring_all.
  - rewrite <- append_assoc.
    replace (String.length (string_of_list_ascii l) + 7)%nat
      with (String.length (string_of_list_ascii l +:+ "/hello/"))
      by (rewrite length_append; reflexivity).
    rewrite substring_skip. apply substring_all.
Qed.

Lemma hello_name_submatch (p name : string) :
  valid_name name = true ->
  regexp.FindStringSubmatch hello_name_re (p +:+ "/hello/" +:+ name) =
  ["/hello/" +:+ name; name].
Proof.
  intros Hv. destruct (valid_name_inv name Hv) as [Hne Hall].
  assert (Hm : regexp.FindStringSubmatch hello_name_re
                 (p +:+ "/hello/" +:+ name) <> []).
  { rewrite <- (append_empty_r name).
    rewrite <- (append_assoc "/hello/" name "").
    apply unanchored_search; [discriminate | done |].
    apply submatch_is_search. rewrite list_ascii_of_string_app.
    refine (search_complete hello_name_re [] _ 0 _).
    eexists. exact (hello_name_run 0 _ Hne Hall). }
  destruct (hello_name_submatch_inv _ Hm) as (p' & name' & Hp & Hv' & ->).
  destruct (valid_name_inv name' Hv') as [_ Hall'].
  apply (f_equal list_ascii_of_string) in Hp.
  rewrite !list_ascii_of_string_app in Hp.
  change (list_ascii_of_string "/hello/")
    with (list_ascii_of_string "/hello" ++ ["/"%char])%list in Hp.
  rewrite <- !app_assoc in Hp. cbn [app] in Hp.
  rewrite !(app_assoc _ (list_ascii_of_string "/hello")) in Hp.
  destruct (last_slash_unique _ _ _ _ Hp Hall Hall') as [_ Hn].
  assert (name = name') as <-.
  { rewrite <- (string_of_list_ascii_of_string name), Hn.
    apply string_of_list_ascii_of_string. }
  reflexivity.
Qed.

Lemma run_begin i t caps k :
  regexp.run syntax.BeginText i t caps k =
  if (i =? 0)%nat then k i t caps else None.
Proof. reflexivity. Qed.

(** The pattern of the first route matches the path [/hello] and no other. *)
Lemma hello_submatch (path : string) :
  regexp.FindStringSubmatch hello_re path <> [] <-> path = "/hello".
Proof.
  split; [|intros ->; vm_compute; discriminate].
  unfold regexp.FindStringSubmatch.
  destruct (regexp.search hello_re 0 (list_ascii_of_string path))
    as [caps|] eqn:Hs; [intros _ | done].
  destruct (search_found_caps _ _ _ _ Hs) as (l & t & Hpath & Hrun).
  unfold hello_re in Hrun. cbn [regexp.prog regexp.numSubexp] in Hrun.
  rewrite run_capture, run_concat, run_begin in Hrun.
  destruct l as [|b l]; [|discriminate].
  cbn [length Nat.add Nat.eqb] in Hrun.
  apply run_literal_inv in Hrun as (t1 & -> & Hrun).
  apply run_literal_inv in Hrun as (t2 & -> & Hrun).
  apply run_literal_inv in Hrun as (t3 & -> & Hrun).
  apply run_literal_inv in Hrun as (t4 & -> & Hrun).
  apply run_literal_inv in Hrun as (t5 & -> & Hrun).
  apply run_literal_inv in Hrun as (t6 & -> & Hrun).
  destruct t6 as [|c t]; [|discriminate].
  rewrite <- (string_of_list_ascii_of_string path), Hpath. reflexivity.
Qed.

(** ** What the demonstrated server answers *)

Lemma Sprintf_hello (name : string) :
  fmt.Sprintf "Hello %s" [name] = "Hello " +:+ name.
Proof. cbn [fmt.Sprintf]. by rewrite append_empty_r. Qed.

Lemma hello_name_not_hello (p name : string) :
  valid_name name = true ->
  regexp.FindStringSubmatch hello_re (p +:+ "/hello/" +:+ name) = [].
Proof.
  intros Hv.
  destruct (regexp.FindStringSubmatch hello_re (p +:+ "/hello/" +:+ name))
    as [|x m] eqn:Hm; [done|].
  assert (Hp : p +:+ "/hello/" +:+ name = "/hello")
    by (apply hello_submatch; by rewrite Hm).
  pose proof (hello_name_submatch p name Hv) as Hn. rewrite Hp in Hn.
  vm_compute in Hn. discriminate.
Qed.

Lemma demo_dispatch_hello (r : http.Request) :
  url.Path (http.URL r) = "/hello" ->
  RegexRouter.ServeHTTP r (fresh demo_app) =
  RegexRouter.call (Routed 0) RegexRouter.hello_world
    {| RegexRouter.Request_ := r; RegexRouter.Params := [] |} (fresh demo_app).
Proof.
  intros Hp.
  etransitivity;
    [refine (@ServeHTTP_hit go_regexp r (fresh demo_app) 0%nat
               {| RegexRouter.Pattern := hello_re;
                  RegexRouter.Handler_ := RegexRouter.hello_world |} _ _ _)|].
  4: { cbn [RegexRouter.Pattern RegexRouter.Handler_ FindStringSubmatch go_regexp].
       by rewrite Hp. }
  - reflexivity.
  - cbn [RegexRouter.Pattern FindStringSubmatch go_regexp]. by apply hello_submatch.
  - intros j rt' Hj. lia.
Qed.

Lemma demo_dispatch_name (r : http.Request) (p name : string) :
  url.Path (http.URL r) = p +:+ "/hello/" +:+ name ->
  valid_name name = true ->
  RegexRouter.ServeHTTP r (fresh demo_app) =
  RegexRouter.call (Routed 1) RegexRouter.hello_name
    {| RegexRouter.Request_ := r; RegexRouter.Params := [name] |}
    (fresh demo_app).
Proof.
  intros Hp Hv.
  etransitivity;
    [refine (@ServeHTTP_hit go_regexp r (fresh demo_app) 1%nat
               {| RegexRouter.Pattern := hello_name_re;
                  RegexRouter.Handler_ := RegexRouter.hello_name |} _ _ _)|].
  4: { cbn [RegexRouter.Pattern RegexRouter.Handler_ FindStringSubmatch go_regexp].
       by rewrite Hp, hello_name_submatch. }
  - reflexivity.
  - cbn [RegexRouter.Pattern FindStringSubmatch go_regexp].
    by rewrite Hp, hello_name_submatch.
  - intros [|j] rt' Hj Hl; [|lia]. injection Hl as <-.
    cbn [RegexRouter.Pattern FindStringSubmatch go_regexp].
    rewrite Hp. by apply hello_name_not_hello.
Qed.

Lemma demo_dispatch_default (r : http.Request) :
  url.Path (http.URL r) <> "/hello" ->
  regexp.FindStringSubmatch hello_name_re (url.Path (http.URL r)) = [] ->
  RegexRouter.ServeHTTP r (fresh demo_app) =
  RegexRouter.call Default (RegexRouter.DefaultRoute RegexRouter.NewApp)
    {| RegexRouter.Request_ := r; RegexRouter.Params := [] |} (fresh demo_app).
Proof.
  intros Hne Hn. apply (@ServeHTTP_miss go_regexp r (fresh demo_app)).
  intros rt Hin. each_demo_route Hin;
    cbn [RegexRouter.Pattern FindStringSubmatch go_regexp]; [|exact Hn].
  destruct (regexp.FindStringSubmatch hello_re (url.Path (http.URL r)))
    as [|x m] eqn:Hm; [done|].
  destruct Hne. apply hello_submatch. by rewrite Hm.
Qed.

(** The three answers of the demonstrated server, as exchanges. *)
Lemma demo_serve_hello (r : http.Request) :
  url.Path (http.URL r) = "/hello" ->
  RegexRouter.serve_one demo_app r = (Served (plain 200 "Hello world"), demo_app).
Proof.
  intros Hp. unfold RegexRouter.serve_one.
  change {| RegexRouter.a := demo_app; RegexRouter.w := http.NewWriter;
            RegexRouter.ran := [] |} with (fresh demo_app).
  rewrite (demo_dispatch_hello r Hp). reflexivity.
Qed.

Lemma demo_serve_name (r : http.Request) (p name : string) :
  url.Path (http.URL r) = p +:+ "/hello/" +:+ name ->
  valid_name name = true ->
  RegexRouter.serve_one demo_app r =
  (Served (plain 200 ("Hello " +:+ name)), demo_app).
Proof.
  intros Hp Hv. unfold RegexRouter.serve_one.
  change {| RegexRouter.a := demo_app; RegexRouter.w := http.NewWriter;
            RegexRouter.ran := [] |} with (fresh demo_app).
  rewrite (demo_dispatch_name r p name Hp Hv).
  unfold RegexRouter.call, RegexRouter.hello_name.
  cbn [RegexRouter.Params lookup list_lookup fresh RegexRouter.w RegexRouter.a].
  rewrite Sprintf_hello. reflexivity.
Qed.

Lemma demo_serve_default (r : http.Request) :
  url.Path (http.URL r) <> "/hello" ->
  regexp.FindStringSubmatch hello_name_re (url.Path (http.URL r)) = [] ->
  RegexRouter.serve_one demo_app r = (Served (plain 404 "Not found"), demo_app).
Proof.
  intros Hne Hn. unfold RegexRouter.serve_one.
  change {| RegexRouter.a := demo_app; RegexRouter.w := http.NewWriter;
            RegexRouter.ran := [] |} with (fresh demo_app).
  rewrite (demo_dispatch_default r Hne Hn). reflexivity.
Qed.

Lemma main_one (r : http.Request) :
  RegexRouter.main [r] = Ok [fst (RegexRouter.serve_one demo_app r)].
Proof.
  unfold RegexRouter.main. rewrite demo_setup.
  by rewrite ListenAndServe_map.
Qed.

Lemma call_ran_fresh (t : Target) (h : RegexRouter.Handler)
  (req : RegexRouter.Request) (app : RegexRouter.App) :
  RegexRouter.ran (snd (RegexRouter.call t h req (fresh app))) =
  [{| target := t; params := RegexRouter.Params req |}].
Proof. by rewrite (proj2 (proj2 (proj2 (call_effect t h req (fresh app))))). Qed.

(** Every path falls under exactly one of the three cases. *)
Lemma demo_dispatch_cases (r : http.Request) :
  (url.Path (http.URL r) = "/hello" /\
   RegexRouter.ran (snd (RegexRouter.ServeHTTP r (fresh demo_app))) =
     [{| target := Routed 0; params := [] |}] /\
   RegexRouter.serve_one demo_app r =
     (Served (plain 200 "Hello world"), demo_app)) \/
  (exists p name,
     url.Path (http.URL r) = p +:+ "/hello/" +:+ name /\
     valid_name name = true /\
     RegexRouter.ran (snd (RegexRouter.ServeHTTP r (fresh demo_app))) =
       [{| target := Routed 1; params := [name] |}] /\
     RegexRouter.serve_one demo_app r =
       (Served (plain 200 ("Hello " +:+ name)), demo_app)) \/
  (url.Path (http.URL r) <> "/hello" /\
   regexp.FindStringSubmatch hello_name_re (url.Path (http.URL r)) = [] /\
   RegexRouter.ran (snd (RegexRouter.ServeHTTP r (fresh demo_app))) =
     [{| target := Default; params := [] |}] /\
   RegexRouter.serve_one demo_app r =
     (Served (plain 404 "Not found"), demo_app)).
Proof.
  destruct (decide (url.Path (http.URL r) = "/hello")) as [Hp | Hne].
  - left. split; [done|]. split; [|by apply demo_serve_hello].
    by rewrite (demo_dispatch_hello r Hp), call_ran_fresh.
  - destruct (regexp.FindStringSubmatch hello_name_re (url.Path (http.URL r)))
      as [|x m] eqn:Hm.
    + right. right. split; [done|]. split; [done|].
      split; [|by apply demo_serve_default].
      by rewrite (demo_dispatch_default r Hne Hm), call_ran_fresh.
    + right. left.
      destruct (hello_name_submatch_inv (url.Path (http.URL r)))
        as (p & name & Hp & Hv & _); [by rewrite Hm|].
      exists p, name. split; [done|]. split; [done|].
      split; [|by apply (demo_serve_name r p name)].
      by rewrite (demo_dispatch_name r p name Hp Hv), call_ran_fresh.
Qed.

(** A path that ends in a slash is not matched by the name pattern. *)
Lemma trailing_slash_no_name (p : string) :
  regexp.FindStringSubmatch hello_name_re (p +:+ "/") = [].
Proof.
  destruct (regexp.FindStringSubmatch hello_name_re (p +:+ "/")) as [|x m] eqn:Hm;
    [done|].
  destruct (hello_name_submatch_inv (p +:+ "/")) as (p' & name & Hp & Hv & _);
    [by rewrite Hm|].
  destruct (valid_name_inv name Hv) as [Hne Hall].
  apply (f_equal list_ascii_of_string) in Hp.
  rewrite !list_ascii_of_string_app in Hp.
  change (list_ascii_of_string "/hello/")
    with (list_ascii_of_string "/hello" ++ ["/"%char])%list in Hp.
  change (list_ascii_of_string "/") with ["/"%char] in Hp.
  rewrite <- !app_assoc in Hp. cbn [app] in Hp.
  rewrite !(app_assoc _ (list_ascii_of_string "/hello")) in Hp.
  destruct (last_slash_unique _ _ [] _ Hp eq_refl Hall) as [_ Hn].
  by destruct Hne.
Qed.

Lemma trailing_slash_not_hello (p : string) : p +:+ "/" <> "/hello".
Proof.
  intros Hp. apply (f_equal list_ascii_of_string) in Hp.
  rewrite list_ascii_of_string_app in Hp.
  change (list_ascii_of_string "/") with ["/"%char] in Hp.
  change (list_ascii_of_string "/hello")
    with (list_ascii_of_string "/hell" ++ ["o"%char])%list in Hp.
  apply app_inj_tail in Hp as [_ Ho]. discriminate.
Qed.

(** X3 — The first route of the demonstrated server serves the path
    [/hello] and no other path: a request is dispatched to it exactly when
    its path is [/hello], and it is then answered with status 200 and body
    ["Hello world\n"]. *)
Theorem hello_route_serves_exactly_hello (r : http.Request) :
  (url.Path (http.URL r) = "/hello" <->
   exists ps,
     RegexRouter.ran (snd (RegexRouter.ServeHTTP r (fresh demo_app))) =
     [{| target := Routed 0; params := ps |}]) /\
  (url.Path (http.URL r) = "/hello" ->
   RegexRouter.main [r] = Ok [Served (plain 200 "Hello world")]).
Proof.
  split.
  - split.
    + intros Hp. exists []. by rewrite (demo_dispatch_hello r Hp), call_ran_fresh.
    + intros [ps Hran].
      destruct (demo_dispatch_cases r)
        as [(Hp & _) | [(p & name & _ & _ & Hran' & _) | (_ & _ & Hran' & _)]];
        [done | |]; rewrite Hran' in Hran; discriminate.
  - intros Hp. by rewrite main_one, (demo_serve_hello r Hp).
Qed.

Lemma hello_route_serves_exactly_hello_witness :
  RegexRouter.main [get "/hello"] = Ok [Served (plain 200 "Hello world")].
Proof.
  apply (proj2 (hello_route_serves_exactly_hello (get "/hello"))). reflexivity.
Defined.

(** X4 — The second route of the demonstrated server greets by name: a
    request whose path ends in [/hello/] followed by a non-empty name of
    letters, digits, underscores, dots and dashes, with anything before
    it, is dispatched to the second route with the name as its only
    capture, and answered with status 200 and body ["Hello <name>\n"]. *)
Theorem name_route_greets_by_name (r : http.Request) (p name : string) :
  url.Path (http.URL r) = p +:+ "/hello/" +:+ name ->
  valid_name name = true ->
  regexp.FindStringSubmatch hello_name_re (url.Path (http.URL r)) =
    ["/hello/" +:+ name; name] /\
  RegexRouter.ran (snd (RegexRouter.ServeHTTP r (fresh demo_app))) =
    [{| target := Routed 1; params := [name] |}] /\
  RegexRouter.main [r] = Ok [Served (plain 200 ("Hello " +:+ name))].
Proof.
  intros Hp Hv. split; [by rewrite Hp, hello_name_submatch|]. split.
  - by rewrite (demo_dispatch_name r p name Hp Hv), call_ran_fresh.
  - by rewrite main_one, (demo_serve_name r p name Hp Hv).
Qed.

Lemma name_route_greets_by_name_witness :
  RegexRouter.main [get "/api/v1/hello/go-1.22_rc"] =
  Ok [Served (plain 200 "Hello go-1.22_rc")].
Proof.
  apply (name_route_greets_by_name (get "/api/v1/hello/go-1.22_rc")
           "/api/v1" "go-1.22_rc"); reflexivity.
Defined.

(** X5 — The demonstrated server answers 404 exactly to the paths that are
    neither [/hello] nor end in [/hello/] followed by a valid name: for
    such a path, and for no other, the default handler runs, with no
    capture, and the answer is status 404 with body ["Not found\n"]. *)
Theorem other_paths_not_found (r : http.Request) :
  (RegexRouter.ran (snd (RegexRouter.ServeHTTP r (fresh demo_app))) =
     [{| target := Default; params := [] |}] <->
   url.Path (http.URL r) <> "/hello" /\
   forall p name,
     url.Path (http.URL r) = p +:+ "/hello/" +:+ name -> valid_name name = false) /\
  (url.Path (http.URL r) <> "/hello" ->
   (forall p name,
      url.Path (http.URL r) = p +:+ "/hello/" +:+ name -> valid_name name = false) ->
   RegexRouter.main [r] = Ok [Served (plain 404 "Not found")]).
Proof.
  assert (Hnone :
    (forall p name,
       url.Path (http.URL r) = p +:+ "/hello/" +:+ name -> valid_name name = false) ->
    regexp.FindStringSubmatch hello_name_re (url.Path (http.URL r)) = []).
  { intros Hshape.
    destruct (regexp.FindStringSubmatch hello_name_re (url.Path (http.URL r)))
      as [|x m] eqn:Hm; [done|].
    destruct (hello_name_submatch_inv (url.Path (http.URL r)))
      as (p & name & Hp & Hv & _); [by rewrite Hm|].
    rewrite (Hshape p name Hp) in Hv. discriminate. }
  split.
  - split.
    + intros Hran.
      destruct (demo_dispatch_cases r)
        as [(_ & Hran' & _) | [(p & name & _ & _ & Hran' & _)
                              | (Hne & Hn & _ & _)]];
        try (rewrite Hran' in Hran; discriminate).
      split; [done|]. intros p name Hp.
      destruct (valid_name name) eqn:Hv; [|done].
      rewrite Hp, (hello_name_submatch p name Hv) in Hn. discriminate.
    + intros [Hne Hshape].
      by rewrite (demo_dispatch_default r Hne (Hnone Hshape)), call_ran_fresh.
  - intros Hne Hshape.
    by rewrite main_one, (demo_serve_default r Hne (Hnone Hshape)).
Qed.

(** X6 — The demonstrated server answers 404 to every path that ends in a
    slash; among them the bare [/hello/], which the multiplexer examples
    greet with an empty name. *)
Theorem trailing_slash_not_found (r : http.Request) (p : string) :
  url.Path (http.URL r) = p +:+ "/" ->
  RegexRouter.ran (snd (RegexRouter.ServeHTTP r (fresh demo_app))) =
    [{| target := Default; params := [] |}] /\
  RegexRouter.main [r] = Ok [Served (plain 404 "Not found")].
Proof.
  intros Hp.
  assert (Hne : url.Path (http.URL r) <> "/hello")
    by (rewrite Hp; apply trailing_slash_not_hello).
  assert (Hn : regexp.FindStringSubmatch hello_name_re (url.Path (http.URL r)) = [])
    by (rewrite Hp; apply trailing_slash_no_name).
  split.
  - by rewrite (demo_dispatch_default r Hne Hn), call_ran_fresh.
  - by rewrite main_one, (demo_serve_default r Hne Hn).
Qed.

Lemma trailing_slash_not_found_witness :
  RegexRouter.main [get "/hello/"] = Ok [Served (plain 404 "Not found")].
Proof.
  apply (trailing_slash_not_found (get "/hello/") "/hello"). reflexivity.
Defined.

Lemma other_paths_not_found_witness :
  RegexRouter.main [get "/hello/a/b"] = Ok [Served (plain 404 "Not found")].
Proof.
  apply (proj2 (other_paths_not_found (get "/hello/a/b"))).
  - discriminate.
  - intros p name Hp. destruct (valid_name name) eqn:Hv; [|done].
    pose proof (hello_name_submatch p name Hv) as Hm.
    cbn [get url.Path http.URL] in Hp. rewrite <- Hp in Hm.
    vm_compute in Hm. discriminate.
Defined.

(** X7 — The demonstrated server answers every request and never aborts
    one: whatever requests come in, [main] serves each of them with one of
    its three plain-text responses: 200 ["Hello world\n"], 200
    ["Hello <name>\n"] for a valid name, or 404 ["Not found\n"]. *)
Theorem demo_server_always_answers (incoming : list http.Request) :
  exists xs,
    RegexRouter.main incoming = Ok xs /\
    length xs = length incoming /\
    forall x, x ∈ xs ->
      x = Served (plain 200 "Hello world") \/
      (exists name, valid_name name = true /\
                    x = Served (plain 200 ("Hello " +:+ name))) \/
      x = Served (plain 404 "Not found").
Proof.
  exists (map (fun r => fst (RegexRouter.serve_one demo_app r)) incoming).
  split; [|split].
  - unfold RegexRouter.main. rewrite demo_setup. by rewrite ListenAndServe_map.
  - by rewrite length_map.
  - intros x Hx. apply list_elem_of_fmap in Hx as (r & -> & _).
    destruct (demo_dispatch_cases r)
      as [(_ & _ & ->) | [(p & name & _ & Hv & _ & ->) | (_ & _ & _ & ->)]];
      cbn [fst]; eauto.
Qed.

(** ** Handlers and route tables in general *)

(** X8 — The name handler reads the first capture.  Behind a pattern with
    at least one group it answers status 200 with ["Hello "] and the text
    of the first group; behind a pattern with no group the capture
    sequence is empty, the handler panics on the index, and nothing has
    been written. *)
Theorem name_handler_needs_a_group {L : RegexpLib}
  (st : RegexRouter.Serving) (r : http.Request) (i : nat)
  (rt : RegexRouter.Route) :
  RegexRouter.Routes (RegexRouter.a st) !! i = Some rt ->
  FindStringSubmatch (RegexRouter.Pattern rt) (url.Path (http.URL r)) <> [] ->
  (forall j rt', (j < i)%nat ->
     RegexRouter.Routes (RegexRouter.a st) !! j = Some rt' ->
     FindStringSubmatch (RegexRouter.Pattern rt') (url.Path (http.URL r)) = []) ->
  RegexRouter.Handler_ rt = RegexRouter.hello_name ->
  (NumSubexp (RegexRouter.Pattern rt) = 0%nat ->
   (exists msg, fst (RegexRouter.ServeHTTP r st) = Panic msg) /\
   RegexRouter.w (snd (RegexRouter.ServeHTTP r st)) = RegexRouter.w st) /\
  ((0 < NumSubexp (RegexRouter.Pattern rt))%nat ->
   exists g,
     FindStringSubmatch (RegexRouter.Pattern rt) (url.Path (http.URL r)) !! 1%nat
       = Some g /\
     fst (RegexRouter.ServeHTTP r st) = Ok tt /\
     (RegexRouter.w st = http.NewWriter ->
      http.response (RegexRouter.w (snd (RegexRouter.ServeHTTP r st))) =
        plain 200 ("Hello " +:+ g))).
Proof.
  intros Hi Hhit Hbefore Hh.
  rewrite (ServeHTTP_hit r st i rt Hi Hhit Hbefore), Hh.
  pose proof (FindStringSubmatch_length _ _ Hhit) as Hlen.
  destruct (FindStringSubmatch (RegexRouter.Pattern rt) (url.Path (http.URL r)))
    as [|whole groups]; [done|].
  cbn [length drop] in *. injection Hlen as Hlen.
  unfold RegexRouter.call, RegexRouter.hello_name. cbn [RegexRouter.Params].
  split.
  - intros H0. rewrite H0 in Hlen. destruct groups; [|done].
    cbn. split; [eauto | reflexivity].
  - intros Hpos. destruct groups as [|g groups]; [cbn in Hlen; lia|].
    exists g. split; [reflexivity|].
    change (drop 0 (g :: groups) !! 0%nat) with (Some g). cbv beta iota.
    rewrite Sprintf_hello.
    change (RegexRouter.Text http.StatusOK ("Hello " +:+ g) (RegexRouter.w st))
      with (ResponseWrapper03.Text 200 ("Hello " +:+ g) (RegexRouter.w st)).
    rewrite (Text_run 200 ("Hello " +:+ g) (RegexRouter.w st) (or_introl eq_refl)).
    split; [reflexivity|]. intros ->. reflexivity.
Qed.

Lemma name_handler_needs_a_group_witness :
  exists msg,
    fst (RegexRouter.ServeHTTP (get "/hi")
           (fresh (snd (RegexRouter.Handle "^/hi$" RegexRouter.hello_name
                          RegexRouter.NewApp)))) = Panic msg.
Proof.
  edestruct (@name_handler_needs_a_group go_regexp
               (fresh (snd (RegexRouter.Handle "^/hi$" RegexRouter.hello_name
                              RegexRouter.NewApp)))
               (get "/hi") 0%nat) as [Hnone _].
  - reflexivity.
  - eval_submatch. discriminate.
  - intros j rt' Hj. lia.
  - reflexivity.
  - apply Hnone. reflexivity.
Defined.

(** X9 — A router with no route answers every request with the default
    handler: [NewApp], served as it is, gives status 404 with body
    ["Not found\n"] whatever the request, and stays as it was. *)
Theorem empty_router_not_found {L : RegexpLib} (r : http.Request) :
  RegexRouter.ran (snd (RegexRouter.ServeHTTP r (fresh RegexRouter.NewApp))) =
    [{| target := Default; params := [] |}] /\
  RegexRouter.serve_one RegexRouter.NewApp r =
    (Served (plain 404 "Not found"), RegexRouter.NewApp) /\
  forall incoming : list http.Request,
    RegexRouter.ListenAndServe RegexRouter.NewApp incoming =
    map (fun _ => Served (plain 404 "Not found")) incoming.
Proof.
  split; [reflexivity|]. split; [reflexivity|].
  intros incoming. induction incoming as [|r' rest IH]; [reflexivity|].
  cbn [RegexRouter.ListenAndServe map]. by rewrite <- IH.
Qed.

(** X10 — [Handle] checks nothing about the patterns already registered: a
    pattern registered twice gives two routes, in the order of the two
    calls, and the second of them is never dispatched to. *)
Theorem duplicate_pattern_second_is_dead {L : RegexpLib}
  (pattern : string) (re : Regexp) (h1 h2 : RegexRouter.Handler)
  (app : RegexRouter.App) :
  MustCompile pattern = Ok re ->
  let app' :=
    snd (bind (RegexRouter.Handle pattern h1)
           (fun _ => RegexRouter.Handle pattern h2) app) in
  RegexRouter.Routes app' =
    (RegexRouter.Routes app ++
       [{| RegexRouter.Pattern := re; RegexRouter.Handler_ := h1 |};
        {| RegexRouter.Pattern := re; RegexRouter.Handler_ := h2 |}])%list /\
  forall (r : http.Request) (w : http.ResponseWriter) (ps : list string),
    RegexRouter.ran
      (snd (RegexRouter.ServeHTTP r
              {| RegexRouter.a := app'; RegexRouter.w := w;
                 RegexRouter.ran := [] |})) <>
    [{| target := Routed (S (length (RegexRouter.Routes app))); params := ps |}].
Proof.
  intros Hre app'.
  assert (Happ : RegexRouter.Routes app' =
    (RegexRouter.Routes app ++
       [{| RegexRouter.Pattern := re; RegexRouter.Handler_ := h1 |};
        {| RegexRouter.Pattern := re; RegexRouter.Handler_ := h2 |}])%list).
  { subst app'. unfold bind, RegexRouter.Handle. rewrite Hre. cbn.
    by rewrite <- app_assoc. }
  split; [exact Happ|]. intros r w ps Hran.
  set (st := {| RegexRouter.a := app'; RegexRouter.w := w; RegexRouter.ran := [] |})
    in Hran.
  destruct (first_match_cases (RegexRouter.Routes (RegexRouter.a st)) r)
    as [Hnone | (k & rt & Hk & Hhit & Hbefore)].
  - rewrite (ServeHTTP_miss r st Hnone) in Hran.
    rewrite (proj2 (proj2 (proj2 (call_effect _ _ _ _)))) in Hran. discriminate.
  - rewrite (ServeHTTP_hit r st k rt Hk Hhit Hbefore) in Hran.
    rewrite (proj2 (proj2 (proj2 (call_effect _ _ _ _)))) in Hran.
    injection Hran as -> _. cbn [RegexRouter.a st] in Hk, Hbefore.
    rewrite Happ in Hk, Hbefore.
    rewrite lookup_app_r in Hk by lia.
    replace (S (length (RegexRouter.Routes app)) - length (RegexRouter.Routes app))%nat
      with 1%nat in Hk by lia.
    injection Hk as <-.
    apply Hhit.
    apply (Hbefore (length (RegexRouter.Routes app))
             {| RegexRouter.Pattern := re; RegexRouter.Handler_ := h1 |});
      [lia|].
    rewrite lookup_app_r by lia. by rewrite Nat.sub_diag.
Qed.

Lemma duplicate_pattern_second_is_dead_witness :
  RegexRouter.Routes
    (snd (bind (RegexRouter.Handle "^/hello$" RegexRouter.hello_world)
            (fun _ => RegexRouter.Handle "^/hello$" RegexRouter.hello_name)
            RegexRouter.NewApp)) =
  [{| RegexRouter.Pattern := hello_re;
      RegexRouter.Handler_ := RegexRouter.hello_world |};
   {| RegexRouter.Pattern := hello_re;
      RegexRouter.Handler_ := RegexRouter.hello_name |}].
Proof.
  apply (@duplicate_pattern_second_is_dead go_regexp "^/hello$" hello_re
           RegexRouter.hello_world RegexRouter.hello_name RegexRouter.NewApp
           MustCompile_hello).
Defined.

(** ** The multiplexer examples *)

Lemma HasPrefix_append (p s : string) : strings.HasPrefix (p +:+ s) p = true.
Proof.
  induction p as [|c p IH]; [by destruct s|].
  change (String c p +:+ s) with (String c (p +:+ s)).
  cbn [strings.HasPrefix]. by rewrite Ascii.eqb_refl.
Qed.

(** With no replacement left, the scan copies the rest. *)
Lemma replace_from_done (s old new : string) :
  strings.replace_from s old new 0 (Some 0%nat) = s.
Proof.
  induction s as [|c s IH]; [done|]. cbn [strings.replace_from].
  destruct (strings.HasPrefix (String c s) old); by rewrite IH.
Qed.

(** Stripping the prefix [/hello/] from a path that starts with it. *)
Lemma Replace_hello_prefix (rest : string) :
  strings.Replace ("/hello/" +:+ rest) "/hello/" "" 1 = rest.
Proof.
  unfold strings.Replace. cbn [String.eqb Ascii.eqb Bool.eqb orb Z.ltb Z.eqb
    Z.compare Z.to_nat Pos.to_nat Pos.iter_op].
  change (strings.replace_from ("/hello/" +:+ rest) "/hello/" "" 0 (Some 1%nat) = rest).
  change ("/hello/" +:+ rest)
    with (String "/" (String "h" (String "e" (String "l" (String "l"
           (String "o" (String "/" rest))))))).
  cbn [strings.replace_from].
  change (String "/" (String "h" (String "e" (String "l" (String "l"
           (String "o" (String "/" rest)))))))
    with ("/hello/" +:+ rest).
  rewrite HasPrefix_append.
  cbn [String.length Nat.pred strings.replace_from].
  by rewrite replace_from_done.
Qed.

Lemma prefix_handlers_strip (r : http.Request) (rest : string) :
  url.Path (http.URL r) = "/hello/" +:+ rest ->
  fst (ServeMux02.hello_name r http.NewWriter) = Ok tt /\
  http.response (snd (ServeMux02.hello_name r http.NewWriter)) =
    plain 200 ("Hello " +:+ rest) /\
  fst (ResponseWrapper03.hello_name r http.NewWriter) = Ok tt /\
  http.response (snd (ResponseWrapper03.hello_name r http.NewWriter)) =
    plain 200 ("Hello " +:+ rest).
Proof.
  intros Hp.
  unfold ServeMux02.hello_name, ResponseWrapper03.hello_name.
  rewrite Hp, Replace_hello_prefix, Sprintf_hello.
  repeat split; reflexivity.
Qed.

(** X11 — The handler of the prefix [/hello/], in both multiplexer
    examples, strips the leading [/hello/] and nothing else: for a path
    [/hello/] followed by any text, further slashes and further
    occurrences of [/hello/] included, it answers status 200 with
    ["Hello "], that text and a line feed. *)
Theorem prefix_handler_strips_leading_prefix (r : http.Request) (rest : string) :
  url.Path (http.URL r) = "/hello/" +:+ rest ->
  fst (ServeMux02.hello_name r http.NewWriter) = Ok tt /\
  http.response (snd (ServeMux02.hello_name r http.NewWriter)) =
    plain 200 ("Hello " +:+ rest) /\
  fst (ResponseWrapper03.hello_name r http.NewWriter) = Ok tt /\
  http.response (snd (ResponseWrapper03.hello_name r http.NewWriter)) =
    plain 200 ("Hello " +:+ rest).
Proof. exact (prefix_handlers_strip r rest). Qed.

Lemma prefix_handler_strips_leading_prefix_witness :
  http.response
    (snd (ServeMux02.hello_name (get "/hello/a/hello/b") http.NewWriter)) =
  plain 200 "Hello a/hello/b".
Proof.
  apply (prefix_handler_strips_leading_prefix (get "/hello/a/hello/b")
           "a/hello/b" eq_refl).
Defined.

Section ThreeEntries.
Variables h1 h2 h3 : mux.HandlerFunc.

(** The table the two multiplexer examples register, for any three
    handlers. *)
Let entry1 := {| mux.h := h1; mux.pattern := "/hello/" |}.
Let entry2 := {| mux.h := h2; mux.pattern := "/hello" |}.
Let entry3 := {| mux.h := h3; mux.pattern := "/" |}.

Let table : mux.ServeMux :=
  {| mux.m := <["/" := entry3]> (<["/hello" := entry2]> (<["/hello/" := entry1]> ∅));
     mux.es := [entry1; entry3] |}.

Lemma three_entries_registered :
  match mux.HandleFunc mux.NewServeMux "/hello/" h1 with
  | Panic msg => Panic msg
  | Ok mx =>
      match mux.HandleFunc mx "/hello" h2 with
      | Panic msg => Panic msg
      | Ok mx => mux.HandleFunc mx "/" h3
      end
  end = Ok table.
Proof. vm_compute. reflexivity. Qed.

Lemma three_entries_serve (r : http.Request) :
  mux.ServeHTTP table r =
  if String.eqb (url.Path (http.URL r)) "/hello" then h2 r
  else if strings.HasPrefix (url.Path (http.URL r)) "/hello/" then h1 r
  else if strings.HasPrefix (url.Path (http.URL r)) "/" then h3 r
  else mux.NotFound r.
Proof.
  unfold mux.ServeHTTP, mux.match_. cbn [mux.m mux.es table].
  set (p := url.Path (http.URL r)).
  destruct (String.eqb_spec p "/hello") as [-> | Hne2].
  { reflexivity. }
  destruct (decide (p = "/")) as [-> | Hne3].
  { reflexivity. }
  destruct (decide (p = "/hello/")) as [-> | Hne1].
  { reflexivity. }
  rewrite !lookup_insert_ne by done. rewrite lookup_empty.
  cbn [mux.longest_prefix mux.pattern entry1 entry3].
  destruct (strings.HasPrefix p "/hello/"); [reflexivity|].
  destruct (strings.HasPrefix p "/"); reflexivity.
Qed.

End ThreeEntries.

Lemma Sprintf_hello_line (name : string) :
  fmt.Sprintf ("Hello %s" +:+ LF) [name] = fmt.Sprintf "Hello %s" [name] +:+ LF.
Proof. rewrite Sprintf_hello, append_assoc. reflexivity. Qed.

Lemma mux_handlers_agree (r : http.Request) (w : http.ResponseWriter) :
  ServeMux02.hello_name r w = ResponseWrapper03.hello_name r w /\
  ServeMux02.hello_world r w = ResponseWrapper03.hello_world r w /\
  ServeMux02.not_found r w = ResponseWrapper03.not_found r w.
Proof.
  split; [|split; reflexivity].
  unfold ServeMux02.hello_name, ResponseWrapper03.hello_name.
  rewrite Sprintf_hello_line. reflexivity.
Qed.

(** X12 — The response-wrapper example answers as [02_serve_mux.go] does:
    the two programs register the same three patterns, and for every
    request and every state of the writer their multiplexers produce the
    same outcome, the same calls on the writer and the same response. *)
Theorem wrapper_example_agrees_with_serve_mux
  (mx02 mx03 : mux.ServeMux) (r : http.Request) (w : http.ResponseWriter) :
  ServeMux02.handler = Ok mx02 ->
  ResponseWrapper03.handler = Ok mx03 ->
  mux.ServeHTTP mx02 r w = mux.ServeHTTP mx03 r w.
Proof.
  unfold ServeMux02.handler, ResponseWrapper03.handler.
  rewrite !three_entries_registered. intros [= <-] [= <-].
  rewrite !three_entries_serve.
  destruct (mux_handlers_agree r w) as (Hn & Hw & Hnf).
  destruct (String.eqb _ "/hello"); [exact Hw|].
  destruct (strings.HasPrefix _ "/hello/"); [exact Hn|].
  destruct (strings.HasPrefix _ "/"); [exact Hnf | reflexivity].
Qed.

Lemma wrapper_example_agrees_with_serve_mux_witness :
  exists mx02 mx03,
    mux.ServeHTTP mx02 (get "/hello/Patrick") http.NewWriter =
    mux.ServeHTTP mx03 (get "/hello/Patrick") http.NewWriter.
Proof.
  eexists _, _.
  apply (wrapper_example_agrees_with_serve_mux _ _ (get "/hello/Patrick")
           http.NewWriter);
    [apply three_entries_registered | apply three_entries_registered].
Defined.

Lemma canonical_rooted (p : string) :
  canonical p = true -> strings.HasPrefix p "/" = true.
Proof.
  destruct p as [|c p]; [discriminate|]. unfold canonical.
  destruct (Ascii.eqb_spec c "/") as [->|Hc].
  - intros _. cbn. by destruct p.
  - intros H. exfalso.
    destruct c as [[] [] [] [] [] [] [] []]; try discriminate; by destruct Hc.
Qed.

(** X13 — What [02_serve_mux.go] answers on a canonical path: the path
    [/hello] gets 200 ["Hello world\n"]; a path that starts with [/hello/]
    gets 200 with ["Hello "] and what follows that prefix; every other
    path gets the program's own 404 ["Not found\n"], with content type
    [text/plain], so the multiplexer's built-in not-found page is never
    sent. *)
Theorem serve_mux_answers (mx : mux.ServeMux) (r : http.Request) :
  ServeMux02.handler = Ok mx ->
  canonical (url.Path (http.URL r)) = true ->
  fst (mux.ServeHTTP mx r http.NewWriter) = Ok tt /\
  (url.Path (http.URL r) = "/hello" ->
   http.response (snd (mux.ServeHTTP mx r http.NewWriter)) =
     plain 200 "Hello world") /\
  (forall rest, url.Path (http.URL r) = "/hello/" +:+ rest ->
   http.response (snd (mux.ServeHTTP mx r http.NewWriter)) =
     plain 200 ("Hello " +:+ rest)) /\
  (url.Path (http.URL r) <> "/hello" ->
   strings.HasPrefix (url.Path (http.URL r)) "/hello/" = false ->
   http.response (snd (mux.ServeHTTP mx r http.NewWriter)) =
     plain 404 "Not found").
Proof.
  unfold ServeMux02.handler. rewrite three_entries_registered.
  intros [= <-] Hcanon. rewrite three_entries_serve.
  rewrite (canonical_rooted _ Hcanon).
  destruct (String.eqb_spec (url.Path (http.URL r)) "/hello") as [Hp | Hne].
  - split; [reflexivity|]. split; [reflexivity|]. split; [|done].
    intros rest Hrest. rewrite Hp in Hrest.
    apply (f_equal (fun s => String.length s)) in Hrest.
    rewrite length_append in Hrest. cbn in Hrest. lia.
  - destruct (strings.HasPrefix (url.Path (http.URL r)) "/hello/") eqn:Hpre.
    + split; [reflexivity|]. split; [done|]. split; [|done].
      intros rest Hrest.
      apply (prefix_handlers_strip r rest Hrest).
    + split; [reflexivity|]. split; [done|]. split; [|reflexivity].
      intros rest Hrest. rewrite Hrest, HasPrefix_append in Hpre. discriminate.
Qed.

Lemma serve_mux_answers_witness :
  exists mx,
    ServeMux02.handler = Ok mx /\
    http.response (snd (mux.ServeHTTP mx (get "/asdf") http.NewWriter)) =
    plain 404 "Not found".
Proof.
  eexists. split; [apply three_entries_registered|].
  apply (serve_mux_answers _ (get "/asdf") (three_entries_registered _ _ _)
           eq_refl); [discriminate | reflexivity].
Defined.

(** ** The text helper after the status line *)

(** X14 — The text helper cannot change a response that has begun: on a
    writer whose status line has gone out it returns normally whatever the
    code, and the status and the headers on the wire stay what they were;
    only the header map is updated, and the body grows by the text and a
    line feed when the status that went out allows a body.  A handler that
    calls the helper twice, first with a three-digit code that allows a
    body, therefore answers with the status of the first call and both
    bodies. *)
Theorem Text_after_status_only_appends
  (code : Z) (body : string) (w : http.ResponseWriter) :
  http.wroteHeader w = true ->
  let w' := snd (RegexRouter.Text code body w) in
  fst (RegexRouter.Text code body w) = Ok tt /\
  http.StatusCode (http.response w') = http.status w /\
  http.RespHeader (http.response w') = http.sentHeader w /\
  http.Body (http.response w') =
    (if http.bodyAllowedForStatus (http.status w)
     then http.body w +:+ body +:+ LF else http.body w) /\
  http.header w' = <["Content-Type" := ["text/plain"]]> (http.header w) /\
  (forall code0 body0,
     100 <= code0 <= 999 ->
     http.bodyAllowedForStatus code0 = true ->
     http.response
       (snd (bind (RegexRouter.Text code0 body0)
               (fun _ => RegexRouter.Text code body) http.NewWriter)) =
     {| http.StatusCode := code0;
        http.RespHeader := {["Content-Type" := ["text/plain"]]};
        http.Body := (body0 +:+ LF) +:+ body +:+ LF |}).
Proof.
  intros Hw w'. subst w'.
  change RegexRouter.Text with ResponseWrapper03.Text.
  rewrite (Text_run code body w (or_intror Hw)). cbn [fst snd].
  split; [reflexivity|].
  assert (Hlate : forall (v : http.ResponseWriter),
            http.wroteHeader v = true ->
            http.response
              (http.Write (body +:+ LF)
                 (snd (http.WriteHeader code
                         (http.HeaderSet "Content-Type" "text/plain" v)))) =
            {| http.StatusCode := http.status v;
               http.RespHeader := http.sentHeader v;
               http.Body := if http.bodyAllowedForStatus (http.status v)
                            then http.body v +:+ body +:+ LF else http.body v |} /\
            http.header
              (http.Write (body +:+ LF)
                 (snd (http.WriteHeader code
                         (http.HeaderSet "Content-Type" "text/plain" v)))) =
            <["Content-Type" := ["text/plain"]]> (http.header v)).
  { intros [h wh s sh b i c]. cbn [http.wroteHeader]. intros ->.
    cbv beta iota zeta delta
      [http.Write http.WriteHeader http.send_status http.record
       http.HeaderSet snd http.response
       http.wroteHeader http.status http.header http.body http.calls
       http.sentHeader http.interim].
    by destruct (http.bodyAllowedForStatus s). }
  destruct (Hlate w Hw) as [Hresp Hhdr].
  split; [by rewrite Hresp|]. split; [by rewrite Hresp|].
  split; [by rewrite Hresp|]. split; [exact Hhdr|].
  intros code0 body0 Hrange Hb0.
  pose proof (validCode_range code0 Hrange) as Hv0.
  unfold bind.
  rewrite (Text_run code0 body0 http.NewWriter (or_introl Hv0)).
  rewrite (WriteHeader_final code0 _ Hv0 (body_code_not_informational code0 Hb0)).
  cbv beta iota zeta delta
    [http.Write http.send_status http.record http.HeaderSet snd http.NewWriter
     http.wroteHeader http.status http.header http.body http.calls
     http.sentHeader http.interim].
  rewrite Hb0.
  match goal with
  | |- context [ResponseWrapper03.Text code body ?v] =>
      rewrite (Text_run code body v (or_intror eq_refl))
  end.
  cbv beta iota zeta delta
    [http.Write http.WriteHeader http.send_status http.record
     http.HeaderSet snd http.response
     http.wroteHeader http.status http.header http.body http.calls
     http.sentHeader http.interim].
  rewrite Hb0. reflexivity.
Qed.

Lemma Text_after_status_only_appends_witness :
  http.StatusCode
    (http.response
       (snd (RegexRouter.Text 500 "late"
               (snd (RegexRouter.Text 200 "early" http.NewWriter))))) = 200.
Proof.
  apply (Text_after_status_only_appends 500 "late"
           (snd (RegexRouter.Text 200 "early" http.NewWriter)) eq_refl).
Defined.
